(** * universal-subnet-runner: a shallow embedding of the two runners

    The repository holds two variants of one program:
    - the historical, single-subnet runner ([main.go]), which keeps a
      history of port shifts in a JSON file, and
    - the multi-subnet runner, which splits [3 * amountOfSubnets] nodes
      into groups of three.

    Both share the plugin [copy] routine.  The operating system and the
    network-runner library are outside the repository; they are modelled
    as explicit worlds and oracles, so that every statement below is
    quantified over whatever they may answer. *)

From Stdlib Require Import ZArith Lia DecimalString DecimalZ.
From stdpp Require Import base gmap strings list.

Local Open Scope Z_scope.

(** ** Go machine integers *)

Module GoInt.

(** [int] is 64 bits wide on the platforms the runner targets. *)
Definition max_int : Z := 2 ^ 63 - 1.
Definition min_int : Z := - 2 ^ 63.

(** Two's-complement wrap-around of [int] arithmetic. *)
Definition wrap_int (z : Z) : Z := (z + 2 ^ 63) mod 2 ^ 64 - 2 ^ 63.

(** The conversion [uint32(z)]. *)
Definition to_uint32 (z : Z) : Z := z mod 2 ^ 32.

Definition mul (a b : Z) : Z := wrap_int (a * b).
Definition add (a b : Z) : Z := wrap_int (a + b).

(** Go's [/] on [int] truncates toward zero. *)
Definition div (a b : Z) : Z := wrap_int (Z.quot a b).

(** A slice whose elements take [elem_size] bytes never has more
    elements than fit in the address space. *)
Definition slice_fits {A} (elem_size : Z) (l : list A) : Prop :=
  Z.of_nat (length l) * elem_size <= max_int.

End GoInt.

(** ** Errors *)

(** Go's [error] values, as far as the runner can tell them apart. *)
Inductive error : Type :=
| ErrNotExist (path : string)
| ErrPermission (op path : string)
| ErrIO (op path : string)
| ErrorString (msg : string)
| ErrLibrary (msg : string)
| ErrContext (msg : string).

(** ** The file system seen by [copy] *)

Module OS.

Inductive FileKind := Regular | Directory | Irregular.

#[global] Instance FileKind_eq_dec : EqDecision FileKind.
Proof. solve_decision. Defined.

Record File := mkFile {
  f_kind : FileKind;
  f_mode : Z;                    (* permission bits *)
  f_data : list Byte.byte;
}.

(** System calls, logged in the order they are issued. *)
Inductive Syscall :=
| SysStat (path : string)
| SysOpen (path : string)
| SysCreate (path : string)
| SysCopy (dst src : string)
| SysChmod (path : string) (mode : Z)
| SysWriteFile (path : string)
| SysReadFile (path : string)
| SysRemoveAll (path : string)
| SysMkdirAll (path : string) (mode : Z).

(** The file table gives every path a file of its own; paths that
    lead to one file are the matter of [Linked] further down. *)
Record World := mkWorld {
  files : gmap string File;
  calls : list Syscall;
}.

(** What the environment may do to a call apart from what the file
    table decides: permission failures, I/O errors, the umask. *)
Record Faults := mkFaults {
  umask : Z;
  stat_fault : string -> option error;
  open_fault : string -> option error;
  create_fault : string -> option error;
  copy_fault : option (nat * error);  (* bytes moved before the error *)
  chmod_fault : string -> option error;
  write_fault : string -> option error;
  read_fault : string -> option error;
}.

Definition no_faults : Faults :=
  mkFaults 18 (fun _ => None) (fun _ => None) (fun _ => None) None
           (fun _ => None) (fun _ => None) (fun _ => None).

Definition perm_0777 : Z := 511.
Definition perm_0666 : Z := 438.
Definition perm_0644 : Z := 420.

Definition log_call (c : Syscall) (w : World) : World :=
  mkWorld (files w) (calls w ++ [c]).

Definition IsRegular (f : File) : bool := bool_decide (f_kind f = Regular).

(** The owner, the group and the others may all execute. *)
Definition exec_by_all (mode : Z) : bool :=
  Z.testbit mode 6 && Z.testbit mode 3 && Z.testbit mode 0.

(** Somebody may execute. *)
Definition allows_exec (mode : Z) : bool :=
  negb (Z.land mode 73 =? 0).

Definition os_Stat (env : Faults) (w : World) (p : string)
  : World * (error + File) :=
  let w := log_call (SysStat p) w in
  match stat_fault env p with
  | Some e => (w, inl e)
  | None =>
      match files w !! p with
      | None => (w, inl (ErrNotExist p))
      | Some f => (w, inr f)
      end
  end.

(** [os.Open]: read-only; the handle is the path. *)
Definition os_Open (env : Faults) (w : World) (p : string)
  : World * (error + string) :=
  let w := log_call (SysOpen p) w in
  match open_fault env p with
  | Some e => (w, inl e)
  | None =>
      match files w !! p with
      | None => (w, inl (ErrNotExist p))
      | Some _ => (w, inr p)
      end
  end.

(** [os.Create]: O_RDWR|O_CREATE|O_TRUNC with mode 0666 before umask.
    An existing regular file is truncated and keeps its mode. *)
Definition os_Create (env : Faults) (w : World) (p : string)
  : World * (error + string) :=
  let w := log_call (SysCreate p) w in
  match create_fault env p with
  | Some e => (w, inl e)
  | None =>
      match files w !! p with
      | Some f =>
          match f_kind f with
          | Directory => (w, inl (ErrIO "open" p))
          | _ =>
              (mkWorld (<[p := mkFile (f_kind f) (f_mode f) []]> (files w))
                       (calls w), inr p)
          end
      | None =>
          (mkWorld (<[p := mkFile Regular
                                  (Z.land perm_0666 (Z.lnot (umask env)))
                                  []]> (files w))
                   (calls w), inr p)
      end
  end.

(** [io.Copy(dst, src)]: moves the source's bytes until the end or
    until the environment's I/O error. *)
Definition io_Copy (env : Faults) (w : World) (dst src : string)
  : World * (Z * option error) :=
  let w := log_call (SysCopy dst src) w in
  let data := match files w !! src with
              | Some f => f_data f
              | None => []
              end in
  let '(moved, err) := match copy_fault env with
                       | Some (n, e) => (take n data, Some e)
                       | None => (data, None)
                       end in
  (mkWorld (alter (fun f => mkFile (f_kind f) (f_mode f) moved) dst (files w))
           (calls w),
   (Z.of_nat (length moved), err)).

Definition os_Chmod (env : Faults) (w : World) (p : string) (mode : Z)
  : World * option error :=
  let w := log_call (SysChmod p mode) w in
  match chmod_fault env p with
  | Some e => (w, Some e)
  | None =>
      match files w !! p with
      | None => (w, Some (ErrNotExist p))
      | Some f =>
          (mkWorld (<[p := mkFile (f_kind f) mode (f_data f)]> (files w))
                   (calls w), None)
      end
  end.

(** [os.WriteFile]: creates or truncates, then writes everything. *)
Definition os_WriteFile (env : Faults) (w : World) (p : string)
           (data : list Byte.byte) (perm : Z) : World * option error :=
  let w := log_call (SysWriteFile p) w in
  match write_fault env p with
  | Some e => (w, Some e)
  | None =>
      match files w !! p with
      | Some f =>
          match f_kind f with
          | Directory => (w, Some (ErrIO "open" p))
          | _ =>
              (mkWorld (<[p := mkFile (f_kind f) (f_mode f) data]> (files w))
                       (calls w), None)
          end
      | None =>
          (mkWorld (<[p := mkFile Regular
                                  (Z.land perm (Z.lnot (umask env)))
                                  data]> (files w))
                   (calls w), None)
      end
  end.

(** [os.ReadFile]. *)
Definition os_ReadFile (env : Faults) (w : World) (p : string)
  : World * (error + list Byte.byte) :=
  let w := log_call (SysReadFile p) w in
  match read_fault env p with
  | Some e => (w, inl e)
  | None =>
      match files w !! p with
      | None => (w, inl (ErrNotExist p))
      | Some f =>
          match f_kind f with
          | Directory => (w, inl (ErrIO "read" p))
          | _ => (w, inr (f_data f))
          end
      end
  end.

(** [p] itself or something below it. *)
Definition under (p q : string) : bool :=
  String.eqb p q || String.prefix (p +:+ "/") q.

(** [os.RemoveAll]; the runner drops its error. *)
Definition os_RemoveAll (w : World) (p : string) : World :=
  let w := log_call (SysRemoveAll p) w in
  mkWorld (filter (fun kv => under p kv.1 = false) (files w)) (calls w).

(** [os.MkdirAll]; the runner drops its error.  An existing entry is
    left as it is. *)
Definition os_MkdirAll (env : Faults) (w : World) (p : string) (perm : Z)
  : World :=
  let w := log_call (SysMkdirAll p perm) w in
  match files w !! p with
  | Some _ => w
  | None =>
      mkWorld (<[p := mkFile Directory (Z.land perm (Z.lnot (umask env))) []]>
                 (files w))
              (calls w)
  end.

End OS.

Import OS.

(** ** The plugin copy, identical in both variants *)

Definition copy (env : Faults) (w : World) (src dst : string)
  : World * (Z * option error) :=
  let '(w, st) := os_Stat env w src in
  match st with
  | inl err => (w, (0, Some err))
  | inr sourceFileStat =>
      if negb (IsRegular sourceFileStat) then
        (w, (0, Some (ErrorString (src +:+ " is not a regular file"))))
      else
        let '(w, op) := os_Open env w src in
        match op with
        | inl err => (w, (0, Some err))
        | inr source =>
            let '(w, cr) := os_Create env w dst in
            match cr with
            | inl err => (w, (0, Some err))
            | inr destination =>
                let '(w, (nBytes, err)) := io_Copy env w destination source in
                let '(w, cerr) := os_Chmod env w dst perm_0777 in
                match cerr with
                | Some err' => (w, (0, Some err'))
                | None => (w, (nBytes, err))
                end
            end
        end
  end.

(** The sources the plugin distributor has to refuse. *)
Definition missing (w : World) (src : string) : Prop :=
  files w !! src = None.
Definition unreadable (env : Faults) (src : string) : Prop :=
  is_Some (stat_fault env src) \/ is_Some (open_fault env src).
Definition irregular (w : World) (src : string) : Prop :=
  exists f, files w !! src = Some f /\ f_kind f <> Regular.

(** ** Values shared by both runners *)

Inductive Signal := SIGINT | SIGTERM.

Inductive Level := LInfo | LError | LFatal | LStdout.

Inductive Field :=
| FError (e : error)
| FString (key value : string)
| FSignal (sig : Signal).

Record LogEntry := mkLog {
  lvl : Level;
  msg : string;
  fields : list Field;
}.

(** [%d] of [fmt.Sprintf]. *)
Definition itoa (z : Z) : string := NilEmpty.string_of_int (Z.to_int z).

(** A value of [map[string]interface{}]. *)
Inductive FlagValue :=
| VInt (z : Z)
| VString (s : string).

Record NodeConfig := mkNodeConfig {
  nc_Flags : gmap string FlagValue;
}.

Record Config := mkConfig {
  NodeConfigs : list NodeConfig;
  Flags : gmap string FlagValue;
}.

(** What [nw.GetNode] hands back. *)
Record Node := mkNode {
  GetDataDir : string;
  GetAPIPort : Z;               (* uint16 *)
}.

Record SubnetSpec := mkSubnetSpec {
  Participants : list string;
}.

Record BlockchainSpec := mkBlockchainSpec {
  VMName : string;
  Genesis : list Byte.byte;
  ChainConfig : string;
  Subnet : SubnetSpec;
}.

(** The answers of a running network.  The library decides them; the
    runner only reads them.  [nw_Healthy k stopped] is how the [k]-th
    health wait ends when it is left to the library, [stopped] telling
    whether [Stop] was called before the wait returned. *)
Record Network := mkNetwork {
  nw_nodes : nat;                                  (* running node processes *)
  nw_GetNetworkID : error + Z;
  nw_Healthy : nat -> bool -> option error;
  nw_GetNodeNames : error + list string;
  nw_GetNode : string -> error + Node;
  nw_CreateBlockchains : list BlockchainSpec -> error + list string;
  nw_Stop : nat -> option error;                   (* the k-th [Stop] *)
}.

Record Lib := mkLib {
  NewDefaultConfig : string -> error + Config;
  NewDefaultConfigNNodes : string -> Z -> error + Config;
  NewNetwork : Config -> string -> error + Network;
}.

(** The command line, after [flag.Parse]. *)
Record CmdLine := mkCmdLine {
  vmName : string;
  pluginID : string;
  amountOfSubnets : Z;
}.

(** The one-character string holding a double quote. *)
Definition dquote : string := String (Ascii.ascii_of_nat 34) EmptyString.

Definition chainConfig : string :=
  "{" +:+ dquote +:+ "warp-api-enabled" +:+ dquote +:+ ": true}".

(** The published endpoint of one node. *)
Definition rpc_url (apiPort : Z) (chain : string) : string :=
  "http://127.0.0.1:" +:+ itoa apiPort +:+ "/ext/bc/" +:+ chain +:+ "/rpc".

(** [s[lo:hi]] on a slice whose capacity is its length; [None] is the
    run-time panic for bounds out of range. *)
Definition go_slice {A} (s : list A) (lo hi : Z) : option (list A) :=
  if (0 <=? lo) && (lo <=? hi) && (hi <=? Z.of_nat (length s))
  then Some (take (Z.to_nat (hi - lo)) (drop (Z.to_nat lo) s))
  else None.

(** [s[i]]; [None] is the index-out-of-range panic. *)
Definition go_index {A} (s : list A) (i : Z) : option A :=
  if (0 <=? i) then s !! Z.to_nat i else None.

(** How a call of [run] ends. *)
Inductive Outcome (A : Type) :=
| Ok (a : A)
| Err (e : error)
| Panic.
Arguments Ok {A} a.
Arguments Err {A} e.
Arguments Panic {A}.

(** The plugin distribution loop of [run], the same in both variants. *)
Fixpoint copy_plugins (env : Faults) (nw : Network) (binaryPath plugin : string)
         (w : World) (nodeNames : list string) : World * option error :=
  match nodeNames with
  | [] => (w, None)
  | name :: rest =>
      match nw_GetNode nw name with
      | inl err => (w, Some err)
      | inr node =>
          let '(w, (_, err)) :=
            copy env w (binaryPath +:+ "/plugins/" +:+ plugin)
                       (GetDataDir node +:+ "/plugins/" +:+ plugin) in
          match err with
          | Some e => (w, Some e)
          | None => copy_plugins env nw binaryPath plugin w rest
          end
      end
  end.

(** The endpoint loop of [run].  The two variants differ only in the
    index into [chains]: [chain_index i] is [0] in the historical
    runner and [i / subnetSize] in the multi-subnet one. *)
Fixpoint publish_urls (chain_index : Z -> Z) (nw : Network)
         (chains : list string) (names : list string) (i : Z)
         (acc : list string * list LogEntry)
  : Outcome (list string * list LogEntry) :=
  match names with
  | [] => Ok acc
  | name :: rest =>
      match nw_GetNode nw name with
      | inl err => Err err
      | inr node =>
          match go_index chains (chain_index i) with
          | None => Panic
          | Some chain =>
              let url := rpc_url (GetAPIPort node) chain in
              publish_urls chain_index nw chains rest (i + 1)
                (<[Z.to_nat i := url]> acc.1,
                 acc.2 ++ [mkLog LInfo "subnet rpc url"
                                 [FString "node" name; FString "url" url]])
          end
      end
  end.

(** [await]: the log lines around [nw.Healthy]. *)
Definition log_waiting : LogEntry :=
  mkLog LInfo "waiting for all nodes to report healthy..." [].
Definition log_healthy : LogEntry := mkLog LInfo "all nodes healthy..." [].
Definition log_running : LogEntry :=
  mkLog LInfo "Network will run until you CTRL + C to exit..." [].
Definition log_stop_error (e : error) : LogEntry :=
  mkLog LInfo "error stopping network" [FError e].
Definition log_signal (sig : Signal) : LogEntry :=
  mkLog LInfo "got OS signal" [FSignal sig].
Definition log_fatal (e : error) : LogEntry :=
  mkLog LFatal "fatal error" [FError e].

(** ** The historical runner ([main.go]) *)

Module Historical.

Definition defaultShift : Z := 10.

Record NetworkConfig := mkNetworkConfig {
  NetworkID : Z;                (* uint32 *)
  PortShifting : Z;             (* int *)
}.

(** *** The history file *)

Definition nl : string := String (Ascii.ascii_of_nat 10) EmptyString.

Definition marshal_record (c : NetworkConfig) : string :=
  "  {" +:+ nl +:+
  "    " +:+ dquote +:+ "NetworkID" +:+ dquote +:+ ": "
         +:+ itoa (NetworkID c) +:+ "," +:+ nl +:+
  "    " +:+ dquote +:+ "PortShifting" +:+ dquote +:+ ": "
         +:+ itoa (PortShifting c) +:+ nl +:+
  "  }".

Fixpoint marshal_records (l : list NetworkConfig) : string :=
  match l with
  | [] => ""
  | [c] => marshal_record c
  | c :: rest => marshal_record c +:+ "," +:+ nl +:+ marshal_records rest
  end.

(** [json.MarshalIndent] of the history, with no prefix and an indent
    of two spaces.  It cannot fail on a slice of two-integer records;
    the error component is kept because [run] tests it.  [run] only
    marshals a history it has just appended to, never an empty one. *)
Definition json_MarshalIndent (l : list NetworkConfig)
  : error + list Byte.byte :=
  inr (String.list_byte_of_string
         (match l with
          | [] => "[]"
          | _ => "[" +:+ nl +:+ marshal_records l +:+ nl +:+ "]"
          end)).

(** Everything the process is given from outside. *)
Record Env := mkEnv {
  home : string;
  now_unix : Z;
  logger_fault : option error;
  faults : Faults;
  json_Unmarshal : list Byte.byte -> error + list NetworkConfig;
  lib : Lib;
  cmd : CmdLine;
  genesis : list Byte.byte;
}.

Definition configFilePath (env : Env) : string :=
  home env +:+ "/universal-subnet-runner/config.json".
Definition binaryPath (env : Env) : string :=
  home env +:+ "/universal-subnet-runner/avalanchego".
Definition workDir (env : Env) : string :=
  home env +:+ "/universal-subnet-runner/networks/"
           +:+ itoa (now_unix env) +:+ "/nodes".

(** *** The port allocator *)

(** [shift := defaultShift * len(configs)] *)
Definition compute_shift (configs : list NetworkConfig) : Z :=
  GoInt.mul defaultShift (Z.of_nat (length configs)).

(** [Flags[key] = Flags[key].(int) + shift]; [None] is the panic of a
    failed type assertion. *)
Definition shift_flag (key : string) (shift : Z)
           (flags : gmap string FlagValue) : option (gmap string FlagValue) :=
  match flags !! key with
  | Some (VInt port) => Some (<[key := VInt (GoInt.add port shift)]> flags)
  | _ => None
  end.

Fixpoint shift_ports (shift : Z) (ncs : list NodeConfig)
  : option (list NodeConfig) :=
  match ncs with
  | [] => Some []
  | nc :: rest =>
      match shift_flag "http-port" shift (nc_Flags nc) with
      | None => None
      | Some f1 =>
          match shift_flag "staking-port" shift f1 with
          | None => None
          | Some f2 =>
              match shift_ports shift rest with
              | None => None
              | Some rest' => Some (mkNodeConfig f2 :: rest')
              end
          end
      end
  end.

(** *** Loading the history in [main] *)

Inductive Loaded :=
| NoHistory                                 (* [os.Stat] failed: nothing read *)
| LoadedOk (configs : list NetworkConfig)   (* [main] goes on to [run] *)
| LoadFailed (entry : LogEntry).            (* [main] logs and returns *)

Definition load_history (env : Env) (w : World) : World * Loaded :=
  let '(w, st) := os_Stat (faults env) w (configFilePath env) in
  match st with
  | inl _ => (w, NoHistory)
  | inr _ =>
      let '(w, rd) := os_ReadFile (faults env) w (configFilePath env) in
      match rd with
      | inl err => (w, LoadFailed (mkLog LError "Error reading file:" [FError err]))
      | inr data =>
          match json_Unmarshal env data with
          | inl err =>
              (w, LoadFailed (mkLog LError "Error unmarshalling JSON:" [FError err]))
          | inr configs => (w, LoadedOk configs)
          end
      end
  end.

(** *** The process as a two-thread machine *)

Inductive MainPc :=
| PMain                         (* [main], up to the call of [run] *)
| PSetup                        (* [run]: configuration and bootstrap *)
| PRecord                       (* network id, history, signal handler *)
| PAwait (k : nat)              (* [await] entered *)
| PHealthy (k : nat)            (* blocked in [nw.Healthy] *)
| PNodeNames
| PCopy
| PCreate
| PUrls
| PIdle                         (* blocked on [<-closedOnShutdownCh] *)
| PReturn (r : Outcome unit)    (* [run] returns: the deferred [Stop] *)
| PAfterRun (r : Outcome unit)  (* back in [main] *)
| PExit (code : Z)
| PKilled (sig : Signal).       (* default signal action *)

Inductive ListenerPc :=
| LNone                         (* the goroutine does not exist yet *)
| LRecv                         (* blocked on [<-signalChan] *)
| LGot (sig : Signal)
| LStopped                      (* [n.Stop] has returned *)
| LDone.

Record State := mkState {
  pc : MainPc;
  lpc : ListenerPc;
  world : World;
  configs : list NetworkConfig;
  shift : Z;
  logs : list LogEntry;
  stops : nat;                  (* calls of [Stop] so far *)
  net : option Network;
  notified : bool;              (* [signal.Notify] in force *)
  sigbuf : option Signal;       (* [signalsChan], capacity 1 *)
  sig_closed : bool;
  shutdown_closed : bool;       (* [closedOnShutdownCh] *)
  nodeNames : list string;
  chains : list string;
  rpcUrls : list string;
  run_result : option (Outcome unit);
}.

Definition init (w : World) : State :=
  mkState PMain LNone w [] 0 [] 0%nat None false None false false [] [] [] None.

Definition set_pc (p : MainPc) (s : State) : State :=
  mkState p (lpc s) (world s) (configs s) (shift s) (logs s) (stops s)
          (net s) (notified s) (sigbuf s) (sig_closed s) (shutdown_closed s)
          (nodeNames s) (chains s) (rpcUrls s) (run_result s).
Definition set_lpc (l : ListenerPc) (s : State) : State :=
  mkState (pc s) l (world s) (configs s) (shift s) (logs s) (stops s)
          (net s) (notified s) (sigbuf s) (sig_closed s) (shutdown_closed s)
          (nodeNames s) (chains s) (rpcUrls s) (run_result s).
Definition set_world (w : World) (s : State) : State :=
  mkState (pc s) (lpc s) w (configs s) (shift s) (logs s) (stops s)
          (net s) (notified s) (sigbuf s) (sig_closed s) (shutdown_closed s)
          (nodeNames s) (chains s) (rpcUrls s) (run_result s).
Definition set_configs (c : list NetworkConfig) (s : State) : State :=
  mkState (pc s) (lpc s) (world s) c (shift s) (logs s) (stops s)
          (net s) (notified s) (sigbuf s) (sig_closed s) (shutdown_closed s)
          (nodeNames s) (chains s) (rpcUrls s) (run_result s).
Definition set_shift (z : Z) (s : State) : State :=
  mkState (pc s) (lpc s) (world s) (configs s) z (logs s) (stops s)
          (net s) (notified s) (sigbuf s) (sig_closed s) (shutdown_closed s)
          (nodeNames s) (chains s) (rpcUrls s) (run_result s).
Definition add_logs (l : list LogEntry) (s : State) : State :=
  mkState (pc s) (lpc s) (world s) (configs s) (shift s) (logs s ++ l) (stops s)
          (net s) (notified s) (sigbuf s) (sig_closed s) (shutdown_closed s)
          (nodeNames s) (chains s) (rpcUrls s) (run_result s).
Definition incr_stops (s : State) : State :=
  mkState (pc s) (lpc s) (world s) (configs s) (shift s) (logs s) (S (stops s))
          (net s) (notified s) (sigbuf s) (sig_closed s) (shutdown_closed s)
          (nodeNames s) (chains s) (rpcUrls s) (run_result s).
Definition set_net (n : Network) (s : State) : State :=
  mkState (pc s) (lpc s) (world s) (configs s) (shift s) (logs s) (stops s)
          (Some n) (notified s) (sigbuf s) (sig_closed s) (shutdown_closed s)
          (nodeNames s) (chains s) (rpcUrls s) (run_result s).
Definition set_chans (n : bool) (b : option Signal) (c d : bool) (s : State)
  : State :=
  mkState (pc s) (lpc s) (world s) (configs s) (shift s) (logs s) (stops s)
          (net s) n b c d
          (nodeNames s) (chains s) (rpcUrls s) (run_result s).
Definition set_nodeNames (l : list string) (s : State) : State :=
  mkState (pc s) (lpc s) (world s) (configs s) (shift s) (logs s) (stops s)
          (net s) (notified s) (sigbuf s) (sig_closed s) (shutdown_closed s)
          l (chains s) (rpcUrls s) (run_result s).
Definition set_chains (l : list string) (s : State) : State :=
  mkState (pc s) (lpc s) (world s) (configs s) (shift s) (logs s) (stops s)
          (net s) (notified s) (sigbuf s) (sig_closed s) (shutdown_closed s)
          (nodeNames s) l (rpcUrls s) (run_result s).
Definition set_rpcUrls (l : list string) (s : State) : State :=
  mkState (pc s) (lpc s) (world s) (configs s) (shift s) (logs s) (stops s)
          (net s) (notified s) (sigbuf s) (sig_closed s) (shutdown_closed s)
          (nodeNames s) (chains s) l (run_result s).
Definition set_result (r : Outcome unit) (s : State) : State :=
  mkState (pc s) (lpc s) (world s) (configs s) (shift s) (logs s) (stops s)
          (net s) (notified s) (sigbuf s) (sig_closed s) (shutdown_closed s)
          (nodeNames s) (chains s) (rpcUrls s) (Some r).

(** [nw.Stop(context.Background())] with its error logged; both the
    deferred closure of [run] and [shutdownOnSignal] do exactly this. *)
Definition call_Stop (nw : Network) (s : State) : State :=
  let s := incr_stops s in
  match nw_Stop nw (stops s) with
  | Some err => add_logs [log_stop_error err] s
  | None => s
  end.

(** [run] leaves with [r]; the deferred closure is still to run. *)
Definition leave (r : Outcome unit) (s : State) : State := set_pc (PReturn r) s.

(** [main], lines 72-109. *)
Definition main_prologue (env : Env) (s : State) : State :=
  match logger_fault env with
  | Some err =>
      set_pc (PExit 1) (add_logs [mkLog LStdout "" [FError err]] s)
  | None =>
      let '(w, ld) := load_history env (world s) in
      match ld with
      | LoadFailed entry =>
          set_pc (PExit 0) (add_logs [entry] (set_world w s))
      | LoadedOk cfgs =>
          let w := os_RemoveAll w (workDir env) in
          let w := os_MkdirAll (faults env) w (workDir env) perm_0777 in
          set_pc PSetup (set_configs cfgs (set_world w s))
      | NoHistory =>
          let w := os_RemoveAll w (workDir env) in
          let w := os_MkdirAll (faults env) w (workDir env) perm_0777 in
          set_pc PSetup (set_world w s)
      end
  end.

(** [run], lines 160-180: default configuration, port shift,
    bootstrap, registration of the deferred [Stop]. *)
Definition run_setup (env : Env) (s : State) : State :=
  match NewDefaultConfig (lib env) (binaryPath env +:+ "/avalanchego") with
  | inl err => set_pc (PAfterRun (Err err)) (set_result (Err err) s)
  | inr nwConfig =>
      let shift := compute_shift (configs s) in
      match shift_ports shift (NodeConfigs nwConfig) with
      | None => set_pc (PAfterRun Panic) (set_result Panic s)
      | Some ncs =>
          let nwConfig :=
            mkConfig ncs (<["log-level" := VString "INFO"]> (Flags nwConfig)) in
          match NewNetwork (lib env) nwConfig (workDir env) with
          | inl err => set_pc (PAfterRun (Err err)) (set_result (Err err) s)
          | inr nw => set_pc PRecord (set_net nw (set_shift shift s))
          end
      end
  end.

(** [run], lines 182-212: network id, history append and rewrite,
    signal channel, listener goroutine. *)
Definition run_record (env : Env) (nw : Network) (s : State) : State :=
  match nw_GetNetworkID nw with
  | inl err => leave (Err err) s
  | inr networkID =>
      let networkConfig := mkNetworkConfig networkID (shift s) in
      let s := set_configs (configs s ++ [networkConfig]) s in
      match json_MarshalIndent (configs s) with
      | inl err =>
          leave (Err err)
                (add_logs [mkLog LError "Error marshalling JSON:" [FError err]] s)
      | inr updatedConfigContent =>
          let '(w, werr) :=
            os_WriteFile (faults env) (world s) (configFilePath env)
                         updatedConfigContent perm_0644 in
          let s := set_world w s in
          match werr with
          | Some err =>
              leave (Err err)
                    (add_logs [mkLog LError "Error writing to file:" [FError err]] s)
          | None =>
              set_pc (PAwait 1) (set_lpc LRecv (set_chans true None false false s))
          end
      end
  end.

Definition after_health (k : nat) : MainPc :=
  match k with
  | 1%nat => PNodeNames
  | _ => PUrls
  end.

Definition the_spec (env : Env) (names : list string) : BlockchainSpec :=
  mkBlockchainSpec (vmName (cmd env)) (genesis env) chainConfig
                   (mkSubnetSpec names).

(** One step of the main goroutine; [None] when it is blocked or the
    process has ended. *)
Definition main_step (env : Env) (s : State) : option State :=
  match pc s, net s with
  | PMain, _ => Some (main_prologue env s)
  | PSetup, _ => Some (run_setup env s)
  | PRecord, Some nw => Some (run_record env nw s)
  | PAwait k, Some nw => Some (set_pc (PHealthy k) (add_logs [log_waiting] s))
  | PHealthy k, Some nw =>
      match nw_Healthy nw k (0 <? stops s)%nat with
      | None => Some (set_pc (after_health k) (add_logs [log_healthy] s))
      | Some err => Some (leave (Err err) s)
      end
  | PNodeNames, Some nw =>
      match nw_GetNodeNames nw with
      | inl err => Some (leave (Err err) s)
      | inr names => Some (set_pc PCopy (set_nodeNames names s))
      end
  | PCopy, Some nw =>
      let '(w, err) :=
        copy_plugins (faults env) nw (binaryPath env) (pluginID (cmd env))
                     (world s) (nodeNames s) in
      let s := set_world w s in
      match err with
      | Some e => Some (leave (Err e) s)
      | None => Some (set_pc PCreate s)
      end
  | PCreate, Some nw =>
      match nw_CreateBlockchains nw [the_spec env (nodeNames s)] with
      | inl err => Some (leave (Err err) s)
      | inr cs => Some (set_pc (PAwait 2) (set_chains cs s))
      end
  | PUrls, Some nw =>
      match publish_urls (fun _ => 0) nw (chains s) (nodeNames s) 0
                         (replicate (length (nodeNames s)) "", []) with
      | Err e => Some (leave (Err e) s)
      | Panic => Some (leave Panic s)
      | Ok (urls, lg) =>
          Some (set_pc PIdle (add_logs (lg ++ [log_running]) (set_rpcUrls urls s)))
      end
  | PIdle, Some nw =>
      if shutdown_closed s then Some (leave (Ok ()) s) else None
  | PReturn r, Some nw =>
      Some (set_pc (PAfterRun r) (set_result r (call_Stop nw s)))
  | PAfterRun r, _ =>
      match r with
      | Ok _ => Some (set_pc (PExit 0) s)
      | Err e => Some (set_pc (PExit 1) (add_logs [log_fatal e] s))
      | Panic => Some (set_pc (PExit 2) s)
      end
  | _, _ => None
  end.

Definition alive (s : State) : bool :=
  match pc s with
  | PExit _ | PKilled _ => false
  | _ => true
  end.

(** One step of [shutdownOnSignal]. *)
Definition shutdownOnSignal_step (s : State) : option State :=
  if negb (alive s) then None else
  match lpc s, net s with
  | LRecv, _ =>
      match sigbuf s with
      | Some sig =>
          Some (set_lpc (LGot sig)
                  (set_chans (notified s) None (sig_closed s) (shutdown_closed s) s))
      | None => None
      end
  | LGot sig, Some nw =>
      Some (set_lpc LStopped (call_Stop nw (add_logs [log_signal sig] s)))
  | LStopped, _ =>
      Some (set_lpc LDone (set_chans false (sigbuf s) true true s))
  | _, _ => None
  end.

(** The operating system delivers a signal to the process. *)
Definition signal_step (sig : Signal) (s : State) : option State :=
  if negb (alive s) then None else
  if notified s then
    match sigbuf s with
    | None => Some (set_chans true (Some sig) (sig_closed s) (shutdown_closed s) s)
    | Some _ => Some s
    end
  else Some (set_pc (PKilled sig) s).

Inductive Event :=
| EvMain
| EvListener
| EvSignal (sig : Signal).

Definition step (env : Env) (ev : Event) (s : State) : option State :=
  match ev with
  | EvMain => main_step env s
  | EvListener => shutdownOnSignal_step s
  | EvSignal sig => signal_step sig s
  end.

(** A schedule is the order in which the threads and the signals get
    their turn. *)
Fixpoint exec (env : Env) (evs : list Event) (s : State) : option State :=
  match evs with
  | [] => Some s
  | ev :: rest =>
      match step env ev s with
      | Some s' => exec env rest s'
      | None => None
      end
  end.

(** *** Vocabulary of the statements *)

(** Whether the deferred closure of [run] has called [Stop]. *)
Definition deferred_ran (s : State) : nat :=
  match run_result s, net s with
  | Some _, Some _ => 1
  | _, _ => 0
  end.

(** Whether [shutdownOnSignal] has called [Stop]. *)
Definition listener_ran (s : State) : nat :=
  match lpc s with
  | LStopped | LDone => 1
  | _ => 0
  end.

Definition in_main (s : State) : Prop :=
  match pc s with
  | PAfterRun _ | PExit _ | PKilled _ => True
  | _ => False
  end.

Definition before_listener (s : State) : Prop :=
  match pc s with
  | PMain | PSetup | PRecord => True
  | _ => False
  end.

Definition before_bootstrap (s : State) : Prop :=
  match pc s with
  | PMain | PSetup => True
  | _ => False
  end.

(** [run] is returning, or has returned, [nil]. *)
Definition returns_ok (s : State) : Prop :=
  match pc s, run_result s with
  | PReturn (Ok _), _ => True
  | _, Some (Ok _) => True
  | _, _ => False
  end.

(** What every reachable state satisfies. *)
Record Inv (s : State) : Prop := mkInv {
  inv_stops : stops s = (deferred_ran s + listener_ran s)%nat;
  inv_closed : shutdown_closed s = true -> lpc s = LDone;
  inv_ok : returns_ok s -> shutdown_closed s = true /\ net s <> None;
  inv_result : run_result s <> None -> in_main s;
  inv_early : before_listener s -> lpc s = LNone;
  inv_fresh : before_bootstrap s -> net s = None;
}.

(** At the history step the shift is that of the loaded history. *)
Definition shift_matches (s : State) : Prop :=
  match pc s with
  | PRecord => shift s = compute_shift (configs s)
  | _ => True
  end.

(** The exit status agrees with how [run] ended. *)
Definition exit_matches (s : State) : Prop :=
  match pc s with
  | PAfterRun r => run_result s = Some r
  | PExit code =>
      match run_result s with
      | Some (Ok _) => code = 0
      | Some (Err e) => code = 1 /\ last (logs s) = Some (log_fatal e)
      | Some Panic => code = 2
      | None => net s = None
      end
  | _ => True
  end.

(** The character [c] does not occur in [s]. *)
Fixpoint free_of (c : Ascii.ascii) (s : string) : Prop :=
  match s with
  | EmptyString => True
  | String a s' => a <> c /\ free_of c s'
  end.

(** The two invariants on data: the exit status and the shift. *)
Definition DataInv (s : State) : Prop := exit_matches s /\ shift_matches s.

(** [run] holds a network that it has not yet given back to [main]. *)
Definition in_run (s : State) : Prop :=
  match pc s with
  | PRecord | PAwait _ | PHealthy _ | PNodeNames | PCopy | PCreate | PUrls
  | PIdle | PReturn _ => True
  | _ => False
  end.

(** What every reachable state satisfies about the network handle and
    the signal handler. *)
Record NetInv (s : State) : Prop := mkNetInv {
  ni_run : in_run s -> net s <> None;
  ni_listener : lpc s <> LNone -> net s <> None;
  ni_notify : before_listener s -> notified s = false;
}.

End Historical.

(** ** The multi-subnet runner *)

Module MultiSubnet.

Definition subnetSize : Z := 3.

(** Times and durations are in nanoseconds, as [time.Duration]. *)
Definition minute : Z := 60 * 10 ^ 9.
Definition healthyTimeout : Z := 2 * minute.

(** *** Contexts *)

Inductive Context :=
| Background
| WithDeadline (parent : Context) (deadline : Z)
| WithCancel (parent : Context) (cancelled_at : option Z).

Definition DeadlineExceeded : error := ErrContext "context deadline exceeded".
Definition Canceled : error := ErrContext "context canceled".

(** When [ctx.Done()] closes, and what [ctx.Err()] is from then on. *)
Fixpoint done_at (ctx : Context) : option (Z * error) :=
  match ctx with
  | Background => None
  | WithDeadline parent d =>
      match done_at parent with
      | Some (t, e) => if t <=? d then Some (t, e) else Some (d, DeadlineExceeded)
      | None => Some (d, DeadlineExceeded)
      end
  | WithCancel parent c =>
      match done_at parent, c with
      | Some (t, e), Some tc => if t <=? tc then Some (t, e) else Some (tc, Canceled)
      | Some (t, e), None => Some (t, e)
      | None, Some tc => Some (tc, Canceled)
      | None, None => None
      end
  end.

(** Everything the process is given from outside.  [health k] is what
    the cluster does by itself during the [k]-th health wait: after so
    long it reports all nodes healthy ([None]) or fails; [signal_at]
    is the first SIGINT or SIGTERM delivered once [signal.Notify] is
    in force. *)
Record Env := mkEnv {
  home : string;
  now_unix : Z;
  logger_fault : option error;
  faults : Faults;
  lib : Lib;
  cmd : CmdLine;
  genesis : list Byte.byte;
  health : nat -> option (Z * option error);
  signal_at : option (Z * Signal);
}.

Definition binaryPath (env : Env) : string :=
  home env +:+ "/universal-subnet-runner/avalanchego".
Definition workDir (env : Env) : string :=
  home env +:+ "/universal-subnet-runner/networks/"
           +:+ itoa (now_unix env) +:+ "/nodes".

(** [nw.Healthy(ctx)] entered at [now]: the time it returns and its
    result; [None] when it never returns.  The library waits for the
    cluster or for the context, whichever comes first. *)
Definition Healthy (env : Env) (k : nat) (ctx : Context) (now : Z)
  : option (Z * option error) :=
  match health env k, done_at ctx with
  | Some (d, r), Some (t, e) =>
      if now + d <=? t then Some (now + d, r) else Some (Z.max now t, Some e)
  | Some (d, r), None => Some (now + d, r)
  | None, Some (t, e) => Some (Z.max now t, Some e)
  | None, None => None
  end.

(** [await(ctx, nw, log, timeout)] entered at [now]. *)
Definition await (env : Env) (k : nat) (ctx : Context) (timeout now : Z)
  : option (Z * option error * list LogEntry) :=
  let ctx := WithDeadline ctx (now + timeout) in
  match Healthy env k ctx now with
  | None => None
  | Some (t, None) => Some (t, None, [log_waiting; log_healthy])
  | Some (t, Some err) => Some (t, Some err, [log_waiting])
  end.

(** *** The subnet partitioner *)

Section Partition.
Variable size : Z.
Variables (vm : string) (gen : list Byte.byte).
Variable nodeNames : list string.

(** The loop [for i := 0; i < amountOfSubnets; i++] with [n]
    iterations left; [None] is the panic of a slice out of range. *)
Fixpoint specs_loop (n : nat) (i : Z) (blockchainSpecs : list BlockchainSpec)
  : option (list BlockchainSpec) :=
  match n with
  | O => Some blockchainSpecs
  | S n' =>
      match go_slice nodeNames (GoInt.mul i size)
                     (GoInt.mul (GoInt.add i 1) size) with
      | None => None
      | Some part =>
          specs_loop n' (GoInt.add i 1)
            (blockchainSpecs ++
               [mkBlockchainSpec vm gen chainConfig (mkSubnetSpec part)])
      end
  end.

(** [make([]network.BlockchainSpec, 0, amountOfSubnets)] panics on
    a negative capacity; then the loop runs. *)
Definition build_specs (amount : Z) : option (list BlockchainSpec) :=
  if amount <? 0 then None else specs_loop (Z.to_nat amount) 0 [].

End Partition.

(** The participant groups of a list of specs. *)
Definition groups (specs : list BlockchainSpec) : list (list string) :=
  map (fun sp => Participants (Subnet sp)) specs.

(** [uint32(subnetSize*amountOfSubnets)], the node count asked of the
    library. *)
Definition requested_nodes (amount : Z) : Z :=
  GoInt.to_uint32 (GoInt.mul subnetSize amount).

(** *** [run] *)

Inductive Final :=
| Returned (r : Outcome unit)
| Blocked.                      (* waiting for a signal that never comes *)

Record Result := mkResult {
  r_final : Final;
  r_time : Z;
  r_world : World;
  r_logs : list LogEntry;
  r_stops : nat;
  r_net : option Network;
  r_nodeNames : list string;
  r_specs : list BlockchainSpec;
  r_chains : list string;
  r_urls : list string;
}.

(** The deferred closure: [Stop] runs when [run] returns or panics. *)
Definition deferred_Stop (nw : Network) (r : Result) : Result :=
  match r_final r with
  | Blocked => r
  | Returned _ =>
      mkResult (r_final r) (r_time r) (r_world r)
               (r_logs r ++ match nw_Stop nw 1 with
                            | Some err => [log_stop_error err]
                            | None => []
                            end)
               (S (r_stops r)) (r_net r) (r_nodeNames r) (r_specs r)
               (r_chains r) (r_urls r)
  end.

(** [shutdownOnSignal] entered at [now]: blocks for the first signal. *)
Definition shutdownOnSignal (env : Env) (now : Z)
  : option (Z * list LogEntry) :=
  match signal_at env with
  | Some (t, sig) => Some (Z.max now t, [log_signal sig])
  | None => None
  end.

(** [run] from the first health wait on, entered at [t0]. *)
Definition run_body (env : Env) (ctx : Context) (nw : Network) (t0 : Z)
           (w : World) : Result :=
  match await env 1 ctx healthyTimeout t0 with
  | None => mkResult Blocked t0 w [log_waiting] 0 (Some nw) [] [] [] []
  | Some (t1, Some err, lg1) =>
      mkResult (Returned (Err err)) t1 w lg1 0 (Some nw) [] [] [] []
  | Some (t1, None, lg1) =>
      match nw_GetNodeNames nw with
      | inl err => mkResult (Returned (Err err)) t1 w lg1 0 (Some nw) [] [] [] []
      | inr nodeNames =>
          let '(w, cerr) :=
            copy_plugins (faults env) nw (binaryPath env) (pluginID (cmd env))
                         w nodeNames in
          match cerr with
          | Some err =>
              mkResult (Returned (Err err)) t1 w lg1 0 (Some nw) nodeNames [] [] []
          | None =>
              match build_specs subnetSize (vmName (cmd env)) (genesis env)
                                nodeNames (amountOfSubnets (cmd env)) with
              | None =>
                  mkResult (Returned Panic) t1 w lg1 0 (Some nw) nodeNames [] [] []
              | Some specs =>
                  match nw_CreateBlockchains nw specs with
                  | inl err =>
                      mkResult (Returned (Err err)) t1 w lg1 0 (Some nw)
                               nodeNames specs [] []
                  | inr chains =>
                      match await env 2 ctx healthyTimeout t1 with
                      | None =>
                          mkResult Blocked t1 w (lg1 ++ [log_waiting]) 0 (Some nw)
                                   nodeNames specs chains []
                      | Some (t2, Some err, lg2) =>
                          mkResult (Returned (Err err)) t2 w (lg1 ++ lg2) 0
                                   (Some nw) nodeNames specs chains []
                      | Some (t2, None, lg2) =>
                          match publish_urls (fun i => GoInt.div i subnetSize)
                                  nw chains nodeNames 0
                                  (replicate (length nodeNames) "", []) with
                          | Err err =>
                              mkResult (Returned (Err err)) t2 w (lg1 ++ lg2) 0
                                       (Some nw) nodeNames specs chains []
                          | Panic =>
                              mkResult (Returned Panic) t2 w (lg1 ++ lg2) 0
                                       (Some nw) nodeNames specs chains []
                          | Ok (urls, lg3) =>
                              let lg := lg1 ++ lg2 ++ lg3 ++ [log_running] in
                              match shutdownOnSignal env t2 with
                              | None =>
                                  mkResult Blocked t2 w lg 0 (Some nw)
                                           nodeNames specs chains urls
                              | Some (t3, lg4) =>
                                  mkResult (Returned (Ok ())) t3 w (lg ++ lg4) 0
                                           (Some nw) nodeNames specs chains urls
                              end
                          end
                      end
                  end
              end
          end
      end
  end.

Definition run (env : Env) (ctx : Context) (t0 : Z) (w : World) : Result :=
  match NewDefaultConfigNNodes (lib env) (binaryPath env +:+ "/avalanchego")
                               (requested_nodes (amountOfSubnets (cmd env))) with
  | inl err => mkResult (Returned (Err err)) t0 w [] 0 None [] [] [] []
  | inr nwConfig =>
      let nwConfig :=
        mkConfig (NodeConfigs nwConfig)
                 (<["log-level" := VString "INFO"]> (Flags nwConfig)) in
      match NewNetwork (lib env) nwConfig (workDir env) with
      | inl err => mkResult (Returned (Err err)) t0 w [] 0 None [] [] [] []
      | inr nw => deferred_Stop nw (run_body env ctx nw t0 w)
      end
  end.

(** [main] once [flag.Parse] has returned: the exit status, [None]
    while the process is still waiting for a signal, and the final
    result of [run] if it ran. *)
Definition main (env : Env) (t0 : Z) (w : World)
  : option Z * list LogEntry * option Result :=
  match logger_fault env with
  | Some err => (Some 1, [mkLog LStdout "" [FError err]], None)
  | None =>
      let ctx := Background in
      let w := os_RemoveAll w (workDir env) in
      let w := os_MkdirAll (faults env) w (workDir env) perm_0777 in
      let r := run env ctx t0 w in
      match r_final r with
      | Blocked => (None, r_logs r, Some r)
      | Returned (Ok _) => (Some 0, r_logs r, Some r)
      | Returned (Err err) => (Some 1, r_logs r ++ [log_fatal err], Some r)
      | Returned Panic => (Some 2, r_logs r, Some r)
      end
  end.

(** The network [run] has started, if any. *)
Definition bootstrapped (env : Env) : option Network :=
  match NewDefaultConfigNNodes (lib env) (binaryPath env +:+ "/avalanchego")
          (requested_nodes (amountOfSubnets (cmd env))) with
  | inl _ => None
  | inr nwConfig =>
      match NewNetwork (lib env)
              (mkConfig (NodeConfigs nwConfig)
                        (<["log-level" := VString "INFO"]> (Flags nwConfig)))
              (workDir env) with
      | inl _ => None
      | inr nw => Some nw
      end
  end.

(** *** Vocabulary of the statements *)

(** The [i]-th block of [sz] consecutive names, counted from the
    front of the list. *)
Definition slot (sz : nat) (nodes : list string) (i : nat) : list string :=
  take sz (drop (i * sz) nodes).

(** What the runner relies on from the library: it configures as many
    nodes as it is asked for, starts one process per configured node,
    and lists each of them once. *)
Definition lib_honest (l : Lib) : Prop :=
  (forall p n cfg, 0 <= n < 2 ^ 32 ->
                   NewDefaultConfigNNodes l p n = inr cfg ->
                   Z.of_nat (length (NodeConfigs cfg)) = n) /\
  (forall cfg d nw, NewNetwork l cfg d = inr nw ->
                    nw_nodes nw = length (NodeConfigs cfg) /\
                    forall names, nw_GetNodeNames nw = inr names ->
                                  length names = nw_nodes nw /\ NoDup names).

End MultiSubnet.

(** ** A file system with links *)

(** In [OS.World] every path has a file of its own.  Here a path
    names a file, and several paths may name the same one: hard links,
    symbolic links and different spellings of a path.  [copy] is
    embedded once more on this finer file system, with handles that
    denote files rather than paths. *)
Module Linked.

Record World := mkWorld {
  names : gmap string nat;       (* the file each path leads to *)
  inodes : gmap nat File;
}.

(** The file a path leads to, if the path exists and its file does. *)
Definition file_at (w : World) (p : string) : option File :=
  match names w !! p with
  | Some i => inodes w !! i
  | None => None
  end.

(** Two paths that are the same or lead to the same file. *)
Definition same_file (w : World) (p q : string) : Prop :=
  p = q \/ exists i, names w !! p = Some i /\ names w !! q = Some i.

Definition os_Stat (env : Faults) (w : World) (p : string) : error + File :=
  match stat_fault env p with
  | Some e => inl e
  | None =>
      match file_at w p with
      | None => inl (ErrNotExist p)
      | Some f => inr f
      end
  end.

(** [os.Open]: the handle is the file the path leads to. *)
Definition os_Open (env : Faults) (w : World) (p : string) : error + nat :=
  match open_fault env p with
  | Some e => inl e
  | None =>
      match names w !! p with
      | Some i =>
          match inodes w !! i with
          | Some _ => inr i
          | None => inl (ErrNotExist p)
          end
      | None => inl (ErrNotExist p)
      end
  end.

Definition new_file (env : Faults) : File :=
  mkFile Regular (Z.land perm_0666 (Z.lnot (umask env))) [].

(** [os.Create]: an existing file is truncated and keeps its mode; a
    link whose target is missing gets its target created; a path that
    does not exist gets a file no other path leads to. *)
Definition os_Create (env : Faults) (w : World) (p : string)
  : World * (error + nat) :=
  match create_fault env p with
  | Some e => (w, inl e)
  | None =>
      match names w !! p with
      | Some i =>
          match inodes w !! i with
          | Some f =>
              match f_kind f with
              | Directory => (w, inl (ErrIO "open" p))
              | _ =>
                  (mkWorld (names w)
                           (<[i := mkFile (f_kind f) (f_mode f) []]> (inodes w)),
                   inr i)
              end
          | None =>
              (mkWorld (names w) (<[i := new_file env]> (inodes w)), inr i)
          end
      | None =>
          let i := fresh (dom (inodes w) ∪ map_img (names w) : gset nat) in
          (mkWorld (<[p := i]> (names w)) (<[i := new_file env]> (inodes w)),
           inr i)
      end
  end.

(** [io.Copy(dst, src)] on two handles: what the source holds when
    the transfer starts is moved, until the end or the I/O error. *)
Definition io_Copy (env : Faults) (w : World) (dst src : nat)
  : World * (Z * option error) :=
  let data := match inodes w !! src with
              | Some f => f_data f
              | None => []
              end in
  let '(moved, err) := match copy_fault env with
                       | Some (n, e) => (take n data, Some e)
                       | None => (data, None)
                       end in
  (mkWorld (names w)
           (alter (fun f => mkFile (f_kind f) (f_mode f) moved) dst (inodes w)),
   (Z.of_nat (length moved), err)).

Definition os_Chmod (env : Faults) (w : World) (p : string) (mode : Z)
  : World * option error :=
  match chmod_fault env p with
  | Some e => (w, Some e)
  | None =>
      match names w !! p with
      | Some i =>
          match inodes w !! i with
          | Some f =>
              (mkWorld (names w)
                       (<[i := mkFile (f_kind f) mode (f_data f)]> (inodes w)),
               None)
          | None => (w, Some (ErrNotExist p))
          end
      | None => (w, Some (ErrNotExist p))
      end
  end.

Definition copy (env : Faults) (w : World) (src dst : string)
  : World * (Z * option error) :=
  match os_Stat env w src with
  | inl err => (w, (0, Some err))
  | inr sourceFileStat =>
      if negb (IsRegular sourceFileStat) then
        (w, (0, Some (ErrorString (src +:+ " is not a regular file"))))
      else
        match os_Open env w src with
        | inl err => (w, (0, Some err))
        | inr source =>
            let '(w, cr) := os_Create env w dst in
            match cr with
            | inl err => (w, (0, Some err))
            | inr destination =>
                let '(w, (nBytes, err)) := io_Copy env w destination source in
                let '(w, cerr) := os_Chmod env w dst perm_0777 in
                match cerr with
                | Some err' => (w, (0, Some err'))
                | None => (w, (nBytes, err))
                end
            end
        end
  end.

(** The plugin loop of [run] on this file system. *)
Fixpoint copy_plugins (env : Faults) (nw : Network) (binaryPath plugin : string)
         (w : World) (nodeNames : list string) : World * option error :=
  match nodeNames with
  | [] => (w, None)
  | name :: rest =>
      match nw_GetNode nw name with
      | inl err => (w, Some err)
      | inr node =>
          let '(w, (_, err)) :=
            copy env w (binaryPath +:+ "/plugins/" +:+ plugin)
                       (GetDataDir node +:+ "/plugins/" +:+ plugin) in
          match err with
          | Some e => (w, Some e)
          | None => copy_plugins env nw binaryPath plugin w rest
          end
      end
  end.

End Linked.

(** ** Concrete surroundings, used to run the models *)

Module Scenario.

Definition node_name (i : nat) : string := "node" +:+ itoa (Z.of_nat i).

Definition node_names (n : nat) : list string := map node_name (seq 1 n).

Definition chain_name (i : nat) : string := "chain" +:+ itoa (Z.of_nat i).

(** A cluster of [n] nodes that behaves: every call succeeds, one
    chain id comes back per submitted spec. *)
Definition good_net (n : nat) : Network :=
  mkNetwork n (inr 1337) (fun _ _ => None) (inr (node_names n))
    (fun name =>
       match list_find (fun x => x = name) (node_names n) with
       | Some (i, _) => inr (mkNode ("/data/" +:+ name) (9650 + 2 * Z.of_nat i))
       | None => inl (ErrLibrary "node not found")
       end)
    (fun specs => inr (map chain_name (seq 0 (length specs))))
    (fun _ => None).

(** The same cluster, except that its nodes never report healthy. *)
Definition sick_net (n : nat) : Network :=
  mkNetwork n (inr 1337) (fun _ _ => Some (ErrLibrary "not healthy"))
    (inr (node_names n))
    (nw_GetNode (good_net n)) (nw_CreateBlockchains (good_net n))
    (fun _ => None).

Definition node_config (i : nat) : NodeConfig :=
  mkNodeConfig (<["http-port" := VInt (9650 + 2 * Z.of_nat i)]>
                (<["staking-port" := VInt (9651 + 2 * Z.of_nat i)]> ∅)).

Definition config_of (n : nat) : Config :=
  mkConfig (map node_config (seq 0 n)) ∅.

(** A library that starts exactly the nodes it is asked for. *)
Definition lib_with (net_of : nat -> Network) : Lib :=
  mkLib (fun _ => inr (config_of 5))
        (fun _ n => inr (config_of (Z.to_nat n)))
        (fun cfg _ => inr (net_of (length (NodeConfigs cfg)))).

Definition good_lib : Lib := lib_with good_net.
Definition sick_lib : Lib := lib_with sick_net.

Definition plugin : string := "srEXiWaHuhNyGwPUi444Tu47ZEDwxTWrbQiuD7FmgSAQ6X7Dy".
Definition cmdline (amount : Z) : CmdLine := mkCmdLine "subnetevm" plugin amount.

Definition elf : list Byte.byte := [Byte.x7f; Byte.x45; Byte.x4c; Byte.x46].

Definition plugin_path : string :=
  "/home/u/universal-subnet-runner/avalanchego/plugins/" +:+ plugin.
Definition history_path : string := "/home/u/universal-subnet-runner/config.json".
Definition binary_dir : string := "/home/u/universal-subnet-runner/avalanchego".

(** A host with the plugin installed and no history file. *)
Definition fresh_host : World :=
  mkWorld (<[plugin_path := mkFile Regular 493 elf]> ∅) [].

(** The same host with a history file whose content is not JSON. *)
Definition garbled_host : World :=
  mkWorld (<[history_path := mkFile Regular perm_0644 [Byte.x6f; Byte.x6f; Byte.x70; Byte.x73]]>
             (files fresh_host)) [].

Definition two_records : list Historical.NetworkConfig :=
  [Historical.mkNetworkConfig 1337 0; Historical.mkNetworkConfig 1337 10].

(** A decoder that knows one well-formed file and rejects the rest. *)
Definition toy_Unmarshal (data : list Byte.byte)
  : error + list Historical.NetworkConfig :=
  match Historical.json_MarshalIndent two_records with
  | inr good =>
      if String.eqb (String.string_of_list_byte data)
                    (String.string_of_list_byte good)
      then inr two_records
      else inl (ErrorString "invalid character 'o' looking for beginning of value")
  | inl e => inl e
  end.

Definition hist_env (l : Lib) : Historical.Env :=
  Historical.mkEnv "/home/u" 1700000000 None no_faults toy_Unmarshal l
                   (cmdline 1) [].

(** The history file exists but may not be read. *)
Definition unreadable_faults : Faults :=
  mkFaults 18 (fun _ => None) (fun _ => None) (fun _ => None) None
           (fun _ => None) (fun _ => None)
           (fun p => if String.eqb p history_path
                     then Some (ErrPermission "open" p) else None).

Definition hist_env_unreadable : Historical.Env :=
  Historical.mkEnv "/home/u" 1700000000 None unreadable_faults toy_Unmarshal
                   good_lib (cmdline 1) [].

(** The disk gives up after two bytes of every transfer. *)
Definition short_write : Faults :=
  mkFaults 18 (fun _ => None) (fun _ => None) (fun _ => None)
           (Some (2%nat, ErrIO "write" "no space left on device"))
           (fun _ => None) (fun _ => None) (fun _ => None).

Definition node1_plugin : string := "/data/node1/plugins/" +:+ plugin.

(** A multi-subnet run: every health wait ends well after five
    seconds unless [h] says otherwise. *)
Definition multi_env (amount : Z) (l : Lib)
           (h : nat -> option (Z * option error))
           (sg : option (Z * Signal)) : MultiSubnet.Env :=
  MultiSubnet.mkEnv "/home/u" 1700000000 None no_faults l (cmdline amount) []
                    h sg.

Definition second : Z := 10 ^ 9.
Definition soon : nat -> option (Z * option error) :=
  fun _ => Some (5 * second, None).
Definition never : nat -> option (Z * option error) := fun _ => None.

Import Historical.

(** SIGINT once the network is up and published: the listener stops
    the network, then [run] returns and its deferred call stops it
    again. *)
Definition normal_shutdown : list Event :=
  [EvMain; EvMain; EvMain;            (* main, setup, record *)
   EvMain; EvMain;                    (* first health wait *)
   EvMain; EvMain; EvMain;            (* names, plugins, blockchains *)
   EvMain; EvMain;                    (* second health wait *)
   EvMain;                            (* endpoints; now idle *)
   EvSignal SIGINT;
   EvListener; EvListener; EvListener;
   EvMain; EvMain; EvMain].           (* wake up, deferred stop, exit *)

(** SIGINT after the bootstrap, before [signal.Notify]. *)
Definition early_signal : list Event := [EvMain; EvMain; EvSignal SIGINT].

(** The nodes never get healthy and nobody sends a signal. *)
Definition health_failure : list Event :=
  [EvMain; EvMain; EvMain; EvMain; EvMain; EvMain; EvMain].

(** SIGTERM while the first health wait is blocking. *)
Definition signal_during_wait : list Event :=
  [EvMain; EvMain; EvMain; EvMain;
   EvSignal SIGTERM; EvListener; EvListener;
   EvMain; EvMain; EvMain].

(** The destination's mode cannot be changed. *)
Definition chmod_denied : Faults :=
  mkFaults 18 (fun _ => None) (fun _ => None) (fun _ => None) None
           (fun p => Some (ErrPermission "chmod" p))
           (fun _ => None) (fun _ => None).

(** Nothing can be created under [/data]. *)
Definition create_denied : Faults :=
  mkFaults 18 (fun _ => None) (fun _ => None)
           (fun p => Some (ErrPermission "open" p)) None
           (fun _ => None) (fun _ => None) (fun _ => None).

(** A later run on the same host, whose decoder reads the one record
    an earlier run has left. *)
Definition one_record : list Historical.NetworkConfig :=
  [Historical.mkNetworkConfig 1337 0].

Definition hist_env_second : Historical.Env :=
  Historical.mkEnv "/home/u" 1700000000 None no_faults (fun _ => inr one_record)
                   good_lib (cmdline 1) [].

(** A library whose bootstrap fails. *)
Definition broken_lib : Lib :=
  mkLib (fun _ => inr (config_of 5))
        (fun _ n => inr (config_of (Z.to_nat n)))
        (fun _ _ => inl (ErrLibrary "couldn't find avalanchego binary")).

(** A cluster that boots but then does not tell its network id. *)
Definition nameless_net (n : nat) : Network :=
  mkNetwork n (inl (ErrLibrary "network stopped")) (nw_Healthy (good_net n))
    (nw_GetNodeNames (good_net n)) (nw_GetNode (good_net n))
    (nw_CreateBlockchains (good_net n)) (fun _ => None).

Definition nameless_lib : Lib := lib_with nameless_net.


Definition linked_host : Linked.World :=
  Linked.mkWorld (<[plugin_path := 0%nat]> (<[node1_plugin := 0%nat]> ∅))
                 (<[0%nat := mkFile Regular 493 elf]> ∅).

(** The host after a first run: the history file holds the one record
    of that run. *)
Definition history_bytes (l : list Historical.NetworkConfig) : list Byte.byte :=
  match Historical.json_MarshalIndent l with
  | inr data => data
  | inl _ => []
  end.

Definition recorded_host : World :=
  mkWorld (<[history_path := mkFile Regular perm_0644 (history_bytes one_record)]>
             (files fresh_host)) [].

End Scenario.

(** * Properties *)

(** ** Machine integers *)

Module GoIntFacts.
Import GoInt.

Lemma wrap_int_small z : min_int <= z <= max_int -> wrap_int z = z.
Proof.
  unfold wrap_int, min_int, max_int. intros H.
  rewrite Z.mod_small by lia. lia.
Qed.


Lemma mul_small a b : min_int <= a * b <= max_int -> mul a b = a * b.
Proof. apply wrap_int_small. Qed.

Lemma add_small a b : min_int <= a + b <= max_int -> add a b = a + b.
Proof. apply wrap_int_small. Qed.


End GoIntFacts.

(** ** The plugin copy *)

(** A pair is known once its second component is, the first taken as
    it comes. *)
Lemma pair_from_snd {A B : Type} (p : A * B) (b : B) : p.2 = b -> p = (p.1, b).
Proof. destruct p; simpl; congruence. Qed.

Lemma elem_of_snoc {A} (l : list A) (x c : A) :
  c ∈ l ++ [x] -> c ∈ l \/ c = x.
Proof. rewrite elem_of_app, list_elem_of_singleton. tauto. Qed.

Ltac unfold_os :=
  unfold copy, os_Stat, os_Open, os_Create, io_Copy, os_Chmod, log_call,
    IsRegular.

(** C6.  [copy] returns an error and leaves the file table as it was,
    issuing no call beyond [Stat] and [Open], whenever the source is
    missing, unreadable or not a regular file; and whenever [copy]
    returns no error, the source was a regular file and the destination
    exists with mode 0777, so it may be executed. *)
Theorem copy_refuses_or_marks_executable
        (env : Faults) (w : World) (src dst : string) :
  (missing w src \/ unreadable env src \/ irregular w src ->
   exists e, (copy env w src dst).2 = (0, Some e) /\
             files (copy env w src dst).1 = files w /\
             forall c, c ∈ calls (copy env w src dst).1 ->
                       c ∈ calls w \/ c = SysStat src \/ c = SysOpen src)
  /\
  (forall n, (copy env w src dst).2 = (n, None) ->
   exists s d, files w !! src = Some s /\ f_kind s = Regular /\
               files (copy env w src dst).1 !! dst = Some d /\
               f_mode d = perm_0777 /\
               allows_exec (f_mode d) = true /\ exec_by_all (f_mode d) = true).
Proof.
  split.
  - intros Hbad. unfold_os. simpl.
    destruct (stat_fault env src) as [e|] eqn:Hst; simpl.
    { exists e. split_and!; [done|done|]. intros c Hc%elem_of_snoc. tauto. }
    destruct (files w !! src) as [f|] eqn:Hf; simpl.
    2:{ eexists. split_and!; [done|done|]. intros c Hc%elem_of_snoc. tauto. }
    case_bool_decide as Hk; simpl.
    2:{ eexists. split_and!; [done|done|]. intros c Hc%elem_of_snoc. tauto. }
    destruct (open_fault env src) as [e|] eqn:Hop; simpl.
    { exists e. split_and!; [done|done|].
      intros c [Hc%elem_of_snoc|Hc]%elem_of_snoc; tauto. }
    exfalso. destruct Hbad as [Hm|[[Hu|Hu]|(g & Hg & Hn)]].
    + unfold missing in Hm. congruence.
    + rewrite Hst in Hu. by destruct Hu.
    + rewrite Hop in Hu. by destruct Hu.
    + congruence.
  - intros n. unfold_os. simpl.
    repeat (case_match; simplify_eq/=); try done.
    all: intros _.
    all: try rewrite lookup_alter_eq in *.
    all: try rewrite lookup_insert_eq in *.
    all: simplify_eq/=.
    all: eexists _, _; split_and!; try done; by case_bool_decide.
Qed.

Lemma copy_refuses_or_marks_executable_witness :
  (exists e, (copy no_faults Scenario.fresh_host "/nowhere" Scenario.node1_plugin).2
             = (0, Some e))
  /\
  (exists d, files (copy no_faults Scenario.fresh_host Scenario.plugin_path
                        Scenario.node1_plugin).1 !! Scenario.node1_plugin = Some d
             /\ f_mode d = 511).
Proof.
  split.
  - destruct (proj1 (copy_refuses_or_marks_executable
                       no_faults Scenario.fresh_host "/nowhere"
                       Scenario.node1_plugin)) as (e & He & _).
    + left. vm_compute. reflexivity.
    + exists e. exact He.
  - destruct (proj2 (copy_refuses_or_marks_executable
                       no_faults Scenario.fresh_host Scenario.plugin_path
                       Scenario.node1_plugin) 4) as (s & d & _ & _ & Hd & Hm & _).
    + vm_compute. reflexivity.
    + exists d. split; [exact Hd | exact Hm].
Defined.

(** C9.  Once the source has been found regular and opened and
    [os.Create] has made the destination, [copy] issues the transfer
    and then [Chmod dst 0777], whatever the transfer did.  When that
    [Chmod] call itself succeeds the destination is still in the file
    table, with mode 0777 (everybody may execute); and when the
    transfer broke off after [k] bytes, [copy] reports that error while
    the destination keeps the [k] bytes it got. *)
Theorem copy_chmods_whatever_the_transfer
        (env : Faults) (w w1 w2 w3 : World) (src dst source destination : string)
        (f : File) :
  os_Stat env w src = (w1, inr f) ->
  IsRegular f = true ->
  os_Open env w1 src = (w2, inr source) ->
  os_Create env w2 dst = (w3, inr destination) ->
  calls (copy env w src dst).1
  = calls w3 ++ [SysCopy dst src; SysChmod dst perm_0777]
  /\ (chmod_fault env dst = None ->
      exists d,
        files (copy env w src dst).1 !! dst = Some d /\
        f_mode d = perm_0777 /\
        exec_by_all (f_mode d) = true /\
        forall k e, copy_fault env = Some (k, e) ->
          (copy env w src dst).2 = (Z.of_nat (length (f_data d)), Some e) /\
          forall s3, files w3 !! src = Some s3 -> f_data d = take k (f_data s3)).
Proof.
  intros Hst Hreg Hop Hcr. unfold copy.
  rewrite Hst, Hreg. simpl. rewrite Hop, Hcr.
  assert (source = src /\ destination = dst) as [-> ->].
  { revert Hop Hcr. unfold os_Open, os_Create.
    repeat (case_match; simplify_eq/=); try done; by intros; simplify_eq. }
  assert (is_Some (files w3 !! dst)) as [d3 Hd3].
  { revert Hcr. unfold os_Create.
    repeat (case_match; simplify_eq/=); try done; intros; simplify_eq/=;
      rewrite lookup_insert_eq; eauto. }
  unfold io_Copy, os_Chmod, log_call. simpl.
  destruct (copy_fault env) as [[k e]|] eqn:Hcf; simpl.
  - split.
    + destruct (chmod_fault env dst); simpl.
      * by rewrite <- app_assoc.
      * rewrite lookup_alter_eq, Hd3. simpl. by rewrite <- app_assoc.
    + intros ->. rewrite lookup_alter_eq, Hd3. simpl.
      eexists. rewrite lookup_insert_eq. split_and!; try done.
      intros k' e' [= <- <-]. simpl. split; [done|].
      intros s3 ->. done.
  - split.
    + destruct (chmod_fault env dst); simpl.
      * by rewrite <- app_assoc.
      * rewrite lookup_alter_eq, Hd3. simpl. by rewrite <- app_assoc.
    + intros ->. rewrite lookup_alter_eq, Hd3. simpl.
      eexists. rewrite lookup_insert_eq. split_and!; try done.
Qed.

Lemma copy_chmods_whatever_the_transfer_witness :
  exists d,
    files (copy Scenario.short_write Scenario.fresh_host Scenario.plugin_path
                Scenario.node1_plugin).1 !! Scenario.node1_plugin = Some d /\
    f_mode d = 511 /\
    (copy Scenario.short_write Scenario.fresh_host Scenario.plugin_path
          Scenario.node1_plugin).2
    = (Z.of_nat (length (f_data d)),
       Some (ErrIO "write" "no space left on device")) /\
    f_data d = [Byte.x7f; Byte.x45].
Proof.
  destruct (copy_chmods_whatever_the_transfer
              Scenario.short_write Scenario.fresh_host
              _ _ _ Scenario.plugin_path Scenario.node1_plugin _ _ _
              eq_refl eq_refl eq_refl eq_refl) as [_ H].
  destruct (H eq_refl) as (d & Hd & Hm & _ & Hk).
  destruct (Hk _ _ eq_refl) as [Hr Hdata].
  exists d. split_and!; [exact Hd | exact Hm | exact Hr |].
  rewrite (Hdata (mkFile Regular 493 Scenario.elf)); [reflexivity|].
  vm_compute. reflexivity.
Defined.

(** ** The subnet partitioner *)

Module PartitionFacts.
Import MultiSubnet.

Section Slots.
Variables (size : Z) (vm : string) (gen : list Byte.byte).
Variable nodes : list string.
Hypothesis size_nonneg : 0 <= size.
Hypothesis nodes_fit : GoInt.slice_fits 16 nodes.

Let sz := Z.to_nat size.

Lemma nodes_len : Z.of_nat (length nodes) <= GoInt.max_int.
Proof.
  unfold GoInt.slice_fits in nodes_fit. unfold GoInt.max_int in *. lia.
Qed.

Lemma go_slice_slot (i : Z) :
  0 <= i -> i + 1 <= GoInt.max_int ->
  (i + 1) * size <= Z.of_nat (length nodes) ->
  go_slice nodes (GoInt.mul i size) (GoInt.mul (GoInt.add i 1) size)
  = Some (slot sz nodes (Z.to_nat i)).
Proof.
  intros Hi Hmax Hlen. pose proof nodes_len as Hn.
  assert (GoInt.min_int <= 0) by (unfold GoInt.min_int; lia).
  rewrite (GoIntFacts.add_small i 1) by lia.
  rewrite !GoIntFacts.mul_small by nia.
  unfold go_slice.
  replace ((0 <=? i * size) && (i * size <=? (i + 1) * size)
           && ((i + 1) * size <=? Z.of_nat (length nodes))) with true.
  2:{ symmetry. rewrite !andb_true_iff, !Z.leb_le. nia. }
  unfold slot, sz. f_equal. f_equal.
  - f_equal. lia.
  - f_equal. rewrite Z2Nat.inj_mul by lia. done.
Qed.

Lemma specs_loop_slots (n : nat) : forall (i : Z) (acc : list BlockchainSpec),
  0 <= i -> i + Z.of_nat n <= GoInt.max_int ->
  (i + Z.of_nat n) * size <= Z.of_nat (length nodes) ->
  specs_loop size vm gen nodes n i acc
  = Some (acc ++ map (fun j => mkBlockchainSpec vm gen chainConfig
                                 (mkSubnetSpec (slot sz nodes j)))
                     (seq (Z.to_nat i) n)).
Proof.
  induction n as [|n IH]; intros i acc Hi Hmax Hlen; simpl.
  - by rewrite app_nil_r.
  - rewrite go_slice_slot by nia.
    rewrite (GoIntFacts.add_small i 1)
      by (unfold GoInt.min_int, GoInt.max_int in *; lia).
    rewrite IH by nia.
    rewrite <- app_assoc. simpl.
    replace (Z.to_nat (i + 1)) with (S (Z.to_nat i)) by lia. done.
Qed.

(** The loop yields the blocks [0 .. count-1], in this order. *)
Lemma build_specs_slots (count : Z) :
  0 <= count <= GoInt.max_int ->
  count * size <= Z.of_nat (length nodes) ->
  exists specs,
    build_specs size vm gen nodes count = Some specs /\
    groups specs = map (slot sz nodes) (seq 0 (Z.to_nat count)).
Proof.
  intros Hcount Hlen. unfold build_specs.
  destruct (count <? 0) eqn:Hneg; [lia|].
  rewrite specs_loop_slots by lia.
  eexists. split; [done|]. cbn [app]. change (Z.to_nat 0) with 0%nat.
  unfold groups. by rewrite map_map.
Qed.

Lemma slots_lookup (c i : nat) (g : list string) :
  map (slot sz nodes) (seq 0 c) !! i = Some g ->
  g = slot sz nodes i /\ (i < c)%nat.
Proof.
  intros Hi. rewrite list_lookup_fmap in Hi.
  destruct (seq 0 c !! i) as [k|] eqn:Hk; [|done].
  apply lookup_seq in Hk as [-> Hlt]. simpl in Hi. by simplify_eq.
Qed.

Lemma slot_length (i : nat) :
  ((i + 1) * sz <= length nodes)%nat -> length (slot sz nodes i) = sz.
Proof. intros H. unfold slot. rewrite length_take, length_drop. nia. Qed.

Lemma concat_slots (c : nat) :
  concat (map (slot sz nodes) (seq 0 c)) = take (c * sz) nodes.
Proof.
  induction c as [|c IH]; [done|].
  rewrite seq_S, map_app, concat_app, IH. simpl. rewrite app_nil_r.
  unfold slot. rewrite take_take_drop. f_equal. lia.
Qed.

Lemma elem_of_slot (i : nat) (x : string) :
  x ∈ slot sz nodes i <->
  exists p, nodes !! p = Some x /\ (i * sz <= p < (i + 1) * sz)%nat.
Proof.
  unfold slot. rewrite elem_of_take. split.
  - intros (k & Hk & Hlt). rewrite lookup_drop in Hk.
    exists (i * sz + k)%nat. split; [done|lia].
  - intros (p & Hp & Hlt). exists (p - i * sz)%nat.
    rewrite lookup_drop. split; [|lia].
    rewrite <- Hp. f_equal. lia.
Qed.

Lemma slots_disjoint (i j : nat) (x : string) :
  NoDup nodes -> i <> j -> x ∈ slot sz nodes i -> x ∉ slot sz nodes j.
Proof.
  intros Hnd Hij (p & Hp & Hpi)%elem_of_slot (q & Hq & Hqj)%elem_of_slot.
  assert (p = q) by (eapply NoDup_lookup; eauto). subst q.
  nia.
Qed.
End Slots.

End PartitionFacts.

(** C4.  For a node list, a subnet size and a subnet count whose product
    does not exceed the number of nodes, the partitioner returns
    [count] groups; group [i] is the block of [size] consecutive names
    starting at position [i * size], so each has exactly [size]
    members; together they are the first [count * size] names in list
    order; and when the names are distinct no name is in two groups. *)
Theorem partition_contract
        (size count : Z) (vm : string) (gen : list Byte.byte) (nodes : list string) :
  0 <= size ->
  0 <= count <= GoInt.max_int ->
  GoInt.slice_fits 16 nodes ->
  count * size <= Z.of_nat (length nodes) ->
  exists specs,
    MultiSubnet.build_specs size vm gen nodes count = Some specs /\
    length (MultiSubnet.groups specs) = Z.to_nat count /\
    (forall i g, MultiSubnet.groups specs !! i = Some g ->
       g = take (Z.to_nat size) (drop (i * Z.to_nat size) nodes) /\
       length g = Z.to_nat size) /\
    concat (MultiSubnet.groups specs) = take (Z.to_nat (count * size)) nodes /\
    (NoDup nodes ->
     forall i j gi gj x, i <> j ->
       MultiSubnet.groups specs !! i = Some gi ->
       MultiSubnet.groups specs !! j = Some gj ->
       x ∈ gi -> x ∉ gj).
Proof.
  intros Hsize Hcount Hfit Hlen.
  destruct (PartitionFacts.build_specs_slots size vm gen nodes Hsize Hfit count)
    as (specs & Hrun & Hg); [done|done|].
  exists specs. split; [done|]. rewrite Hg.
  split_and!.
  - by rewrite length_map, length_seq.
  - intros i g [-> Hi]%PartitionFacts.slots_lookup. split; [done|].
    apply PartitionFacts.slot_length. nia.
  - rewrite PartitionFacts.concat_slots. f_equal.
    rewrite Z2Nat.inj_mul by lia. done.
  - intros Hnd i j gi gj x Hij [-> _]%PartitionFacts.slots_lookup
           [-> _]%PartitionFacts.slots_lookup.
    by apply PartitionFacts.slots_disjoint.
Qed.

Lemma partition_contract_witness :
  exists specs,
    MultiSubnet.build_specs 3 "subnetevm" [] (Scenario.node_names 9) 3 = Some specs /\
    MultiSubnet.groups specs !! 1%nat = Some ["node4"; "node5"; "node6"].
Proof.
  destruct (partition_contract 3 3 "subnetevm" [] (Scenario.node_names 9))
    as (specs & Hrun & _ & Hgroup & _).
  - lia.
  - unfold GoInt.max_int. lia.
  - unfold GoInt.slice_fits, GoInt.max_int. simpl. lia.
  - simpl. lia.
  - exists specs. split; [exact Hrun|].
    destruct (MultiSubnet.groups specs !! 1%nat) as [g|] eqn:Hg.
    + destruct (Hgroup 1%nat g Hg) as [-> _]. reflexivity.
    + exfalso. revert Hg. vm_compute in Hrun.
      injection Hrun as <-. vm_compute. discriminate.
Defined.

(** ** The published endpoints *)

Module UrlFacts.

Section Loop.
Variable chain_index : Z -> Z.
Variable nw : Network.
Variable chains : list string.

(** What a completed endpoint loop has written: the slots below
    [i] are untouched, slot [i + k] holds the URL of the [k]-th
    remaining name. *)
Lemma publish_urls_sound (names : list string) :
  forall (i : Z) (acc : list string * list LogEntry) urls lg,
    0 <= i ->
    (Z.to_nat i + length names <= length acc.1)%nat ->
    publish_urls chain_index nw chains names i acc = Ok (urls, lg) ->
    length urls = length acc.1 /\
    (forall j, (j < Z.to_nat i)%nat -> urls !! j = acc.1 !! j) /\
    (forall k name, names !! k = Some name ->
       exists node chain,
         nw_GetNode nw name = inr node /\
         go_index chains (chain_index (i + Z.of_nat k)) = Some chain /\
         urls !! (Z.to_nat i + k)%nat
         = Some (rpc_url (GetAPIPort node) chain)).
Proof.
  induction names as [|name rest IH]; intros i acc urls lg Hi Hlen Hrun;
    simpl in *.
  - simplify_eq. split_and!; [done|done|]. intros k name Hk. done.
  - destruct (nw_GetNode nw name) as [e|node] eqn:Hnode; [done|].
    destruct (go_index chains (chain_index i)) as [chain|] eqn:Hchain; [|done].
    apply IH in Hrun as (Hl & Hkeep & Hnew); simpl in *.
    2: lia.
    2: { rewrite length_insert. lia. }
    rewrite length_insert in Hl.
    split_and!.
    + done.
    + intros j Hj. rewrite Hkeep by lia.
      apply list_lookup_insert_ne. lia.
    + intros [|k] nm Hk; simpl in Hk.
      * simplify_eq. exists node, chain. rewrite Z.add_0_r, Nat.add_0_r.
        split_and!; [done|done|].
        rewrite Hkeep by lia. apply list_lookup_insert_eq. lia.
      * destruct (Hnew k nm Hk) as (nd & ch & H1 & H2 & H3).
        exists nd, ch. split_and!; [done| |].
        -- rewrite <- H2. f_equal. f_equal. lia.
        -- rewrite <- H3. f_equal. lia.
Qed.

End Loop.


End UrlFacts.




(** ** The scenarios *)

Module ScenarioFacts.
Import Scenario.

Lemma append_inj_r (p a b : string) : p +:+ a = p +:+ b -> a = b.
Proof. induction p as [|c p IH]; simpl; [done|]. intros [= H]. auto. Qed.

Lemma itoa_inj (a b : Z) : itoa a = itoa b -> a = b.
Proof.
  unfold itoa. intros H.
  assert (Hi : Z.to_int a = Z.to_int b).
  { pose proof (NilEmpty.isi (Z.to_int a)) as Ha.
    pose proof (NilEmpty.isi (Z.to_int b)) as Hb.
    rewrite H in Ha. congruence. }
  rewrite <- (DecimalZ.of_to a), <- (DecimalZ.of_to b). by rewrite Hi.
Qed.

Lemma node_names_NoDup (n : nat) : NoDup (node_names n).
Proof.
  unfold node_names. apply NoDup_fmap_2; [|apply NoDup_seq].
  intros i j H. unfold node_name in H.
  apply append_inj_r, itoa_inj in H. lia.
Qed.

Lemma lib_with_honest (net_of : nat -> Network) :
  (forall n, nw_nodes (net_of n) = n /\
             nw_GetNodeNames (net_of n) = inr (node_names n)) ->
  MultiSubnet.lib_honest (lib_with net_of).
Proof.
  intros Hnet. split.
  - intros p n cfg Hn [= <-]. simpl. rewrite length_map, length_seq. lia.
  - intros cfg d nw [= <-]. destruct (Hnet (length (NodeConfigs cfg))) as [H1 H2].
    split; [done|]. intros names Hnames. rewrite H2 in Hnames.
    injection Hnames as <-. rewrite H1. split.
    + unfold node_names. by rewrite length_map, length_seq.
    + apply node_names_NoDup.
Qed.


Lemma sick_lib_honest : MultiSubnet.lib_honest sick_lib.
Proof. apply lib_with_honest. by intros n. Qed.

End ScenarioFacts.

(** ** The multi-subnet [run] as a whole *)

Module RunFacts.
Import MultiSubnet.

Lemma deferred_Stop_net nw r : r_net (deferred_Stop nw r) = r_net r.
Proof. unfold deferred_Stop. destruct (r_final r) eqn:E; simpl; congruence. Qed.

Lemma deferred_Stop_time nw r : r_time (deferred_Stop nw r) = r_time r.
Proof. unfold deferred_Stop. destruct (r_final r) eqn:E; simpl; congruence. Qed.

Lemma deferred_Stop_final nw r : r_final (deferred_Stop nw r) = r_final r.
Proof. unfold deferred_Stop. destruct (r_final r) eqn:E; simpl; congruence. Qed.

Lemma run_body_net env ctx nw t0 w :
  r_net (run_body env ctx nw t0 w) = Some nw.
Proof. unfold run_body. by repeat (case_match; simplify_eq/=). Qed.

Lemma run_net env ctx t0 w : r_net (run env ctx t0 w) = bootstrapped env.
Proof.
  unfold run, bootstrapped.
  destruct (NewDefaultConfigNNodes _ _ _) as [|cfg]; [done|].
  destruct (NewNetwork _ _ _) as [|nw]; [done|].
  by rewrite deferred_Stop_net, run_body_net.
Qed.

Lemma run_bootstrapped env ctx t0 w nw :
  bootstrapped env = Some nw ->
  run env ctx t0 w = deferred_Stop nw (run_body env ctx nw t0 w).
Proof.
  unfold run, bootstrapped.
  destruct (NewDefaultConfigNNodes _ _ _) as [|cfg]; [done|].
  destruct (NewNetwork _ _ _) as [|nw']; [done|].
  by intros [= ->].
Qed.




Lemma run_body_stops env ctx nw t0 w :
  r_stops (run_body env ctx nw t0 w) = 0%nat.
Proof. unfold run_body. by repeat (case_match; simplify_eq/=). Qed.



End RunFacts.




(** ** The health wait and the termination signal *)

Module AwaitFacts.
Import MultiSubnet.

(** [await] reads the cluster and its context, nothing else: two
    environments that differ only in their signals wait alike. *)
Lemma await_ignores_signal env env' k ctx timeout t0 :
  health env k = health env' k ->
  await env k ctx timeout t0 = await env' k ctx timeout t0.
Proof. intros H. unfold await, Healthy. by rewrite H. Qed.

(** Under [context.Background()] a wait on a cluster that never gets
    healthy lasts the whole timeout. *)
Lemma await_background_timeout env k timeout t0 :
  0 <= timeout ->
  health env k = None ->
  await env k Background timeout t0
  = Some (t0 + timeout, Some DeadlineExceeded, [log_waiting]).
Proof.
  intros Ht Hh. unfold await, Healthy. rewrite Hh. simpl.
  by rewrite Z.max_r by lia.
Qed.

(** [await] itself does honour its context: cancelled at [c] before
    the deadline and before the cluster answers, it returns at [c]. *)
Lemma await_honours_cancellation env k timeout t0 c :
  t0 <= c < t0 + timeout ->
  match health env k with
  | Some (d, _) => c < t0 + d
  | None => True
  end ->
  await env k (WithCancel Background (Some c)) timeout t0
  = Some (c, Some Canceled, [log_waiting]).
Proof.
  intros Hc Hh. unfold await, Healthy. simpl.
  replace (c <=? t0 + timeout) with true by (symmetry; apply Z.leb_le; lia).
  destruct (health env k) as [[d r]|].
  - replace (t0 + d <=? c) with false by (symmetry; apply Z.leb_gt; lia).
    by rewrite Z.max_r by lia.
  - by rewrite Z.max_r by lia.
Qed.

End AwaitFacts.

(** C2, on the code.  [main] hands [context.Background()] to [run], and
    nothing connects the signal channel to it.  So when a termination
    signal arrives at [s], strictly inside the first health wait of a
    cluster that does not get healthy, the wait still ends only at the
    timeout, after [s], with a deadline error. *)
Theorem signal_does_not_interrupt_health_wait
        (env : MultiSubnet.Env) (t0 : Z) (w : World) (nw : Network)
        (s : Z) (sig : Signal) :
  MultiSubnet.signal_at env = Some (s, sig) ->
  t0 < s < t0 + MultiSubnet.healthyTimeout ->
  MultiSubnet.health env 1%nat = None ->
  MultiSubnet.r_net (MultiSubnet.run env MultiSubnet.Background t0 w) = Some nw ->
  MultiSubnet.r_final (MultiSubnet.run env MultiSubnet.Background t0 w)
  = MultiSubnet.Returned (Err MultiSubnet.DeadlineExceeded) /\
  MultiSubnet.r_time (MultiSubnet.run env MultiSubnet.Background t0 w)
  = t0 + MultiSubnet.healthyTimeout /\
  s < MultiSubnet.r_time (MultiSubnet.run env MultiSubnet.Background t0 w).
Proof.
  intros Hsig Hs Hh Hnet. rewrite RunFacts.run_net in Hnet.
  rewrite (RunFacts.run_bootstrapped env _ t0 w nw Hnet).
  rewrite RunFacts.deferred_Stop_final, RunFacts.deferred_Stop_time.
  unfold MultiSubnet.run_body.
  rewrite AwaitFacts.await_background_timeout
    by (done || unfold MultiSubnet.healthyTimeout, MultiSubnet.minute; lia).
  simpl. split_and!; [done|done|lia].
Qed.

Lemma signal_does_not_interrupt_health_wait_witness :
  MultiSubnet.r_time
    (MultiSubnet.run
       (Scenario.multi_env 1 Scenario.good_lib Scenario.never
                           (Some (5 * Scenario.second, SIGINT)))
       MultiSubnet.Background 0 Scenario.fresh_host)
  = 120 * Scenario.second.
Proof.
  refine (proj1 (proj2 (signal_does_not_interrupt_health_wait
            (Scenario.multi_env 1 Scenario.good_lib Scenario.never
                                (Some (5 * Scenario.second, SIGINT)))
            0 Scenario.fresh_host (Scenario.good_net 3)
            (5 * Scenario.second) SIGINT eq_refl _ eq_refl _))).
  - vm_compute. split; reflexivity.
  - vm_compute. reflexivity.
Defined.

(** ** The historical runner: who calls [Stop], and how often *)

Module StopFacts.
Import Historical.

(** Projections of updated states, and nothing else, are computed. *)
Ltac state_simpl :=
  cbv beta iota zeta delta
      [pc lpc world configs shift logs stops net notified sigbuf sig_closed
       shutdown_closed nodeNames chains rpcUrls run_result
       set_pc set_lpc set_world set_configs set_shift add_logs incr_stops
       set_net set_chans set_nodeNames set_chains set_rpcUrls set_result
       leave call_Stop after_health
       deferred_ran listener_ran in_main before_listener before_bootstrap
       returns_ok alive negb]
    in *.

Ltac open_state s :=
  destruct s as [pc0 lpc0 world0 configs0 shift0 logs0 stops0 net0 notified0
                 sigbuf0 sigclosed0 closed0 names0 chains0 urls0 result0];
  state_simpl.

Ltac split_vars :=
  repeat match goal with
         | |- context [match ?x with _ => _ end] => is_var x; destruct x
         | H : context [match ?x with _ => _ end] |- _ => is_var x; destruct x
         | H : ?x <> None -> _ |- _ => is_var x; destruct x
         | H : ?x = true -> _ |- _ => is_var x; destruct x
         end.

Ltac use_premises :=
  repeat match goal with
         | H : ?P -> _, H' : ?P |- _ => specialize (H H')
         | H : True -> _ |- _ => specialize (H I)
         end.

Ltac inv_close :=
  state_simpl; simplify_eq; constructor; state_simpl; intros;
  first [ done
        | use_premises; first [done | congruence | lia]
        | split_vars; try (intuition (try first [done | congruence | lia])) ].

Lemma inv_init w : Inv (init w).
Proof. unfold init. inv_close. Qed.

Lemma inv_main_step env s s' : Inv s -> main_step env s = Some s' -> Inv s'.
Proof.
  intros [H1 H2 H3 H4 H5 H6] Hstep. open_state s.
  unfold main_step in Hstep. state_simpl.
  destruct pc0.
  - (* main *)
    unfold main_prologue in Hstep. state_simpl.
    destruct (logger_fault env); [inv_close|].
    destruct (load_history env world0) as [w [| |]]; inv_close.
  - (* setup *)
    unfold run_setup in Hstep. state_simpl.
    destruct (NewDefaultConfig _ _); [inv_close|].
    destruct (shift_ports _ _); [|inv_close].
    destruct (NewNetwork _ _ _); inv_close.
  - (* record *)
    destruct net0 as [nw|]; [|done].
    unfold run_record in Hstep. state_simpl.
    destruct (nw_GetNetworkID nw); [inv_close|].
    destruct (json_MarshalIndent _); [inv_close|].
    destruct (os_WriteFile _ _ _ _ _) as [w [e|]]; inv_close.
  - (* await *)
    destruct net0 as [nw|]; inv_close.
  - (* blocked in Healthy *)
    destruct net0 as [nw|]; [|done].
    destruct (nw_Healthy _ _ _); [|destruct k as [|[|k]]]; inv_close.
  - (* node names *)
    destruct net0 as [nw|]; [|done].
    destruct (nw_GetNodeNames nw); inv_close.
  - (* plugins *)
    destruct net0 as [nw|]; [|done].
    destruct (copy_plugins _ _ _ _ _ _) as [w [e|]]; inv_close.
  - (* blockchains *)
    destruct net0 as [nw|]; [|done].
    destruct (nw_CreateBlockchains _ _); inv_close.
  - (* endpoints *)
    destruct net0 as [nw|]; [|done].
    destruct (publish_urls _ _ _ _ _ _) as [[urls lg]| |]; inv_close.
  - (* idle *)
    destruct net0 as [nw|]; [|done].
    destruct closed0; inv_close.
  - (* the deferred Stop *)
    destruct net0 as [nw|]; [|done].
    destruct (nw_Stop _ _); inv_close.
  - (* back in main *)
    destruct r; inv_close.
  - done.
  - done.
Qed.

Lemma inv_listener_step s s' : Inv s -> shutdownOnSignal_step s = Some s' -> Inv s'.
Proof.
  intros [H1 H2 H3 H4 H5 H6] Hstep. open_state s.
  unfold shutdownOnSignal_step in Hstep. state_simpl.
  destruct lpc0.
  - by destruct pc0.
  - destruct sigbuf0; destruct pc0; inv_close.
  - destruct net0 as [nw|]; [|by destruct pc0].
    destruct (nw_Stop nw (S stops0)) eqn:E; destruct pc0; rewrite ?E in Hstep; inv_close.
  - destruct pc0; inv_close.
  - by destruct pc0.
Qed.

Lemma inv_signal_step sig s s' : Inv s -> signal_step sig s = Some s' -> Inv s'.
Proof.
  intros [H1 H2 H3 H4 H5 H6] Hstep. open_state s.
  unfold signal_step in Hstep. state_simpl.
  destruct pc0; try done; destruct notified0, sigbuf0; inv_close.
Qed.

Lemma inv_step env ev s s' : Inv s -> step env ev s = Some s' -> Inv s'.
Proof.
  destruct ev; simpl;
    eauto using inv_main_step, inv_listener_step, inv_signal_step.
Qed.

Lemma inv_exec env evs : forall s s',
  Inv s -> exec env evs s = Some s' -> Inv s'.
Proof.
  induction evs as [|ev evs IH]; intros s s' Hs Hrun; simpl in Hrun.
  - by simplify_eq.
  - destruct (step env ev s) as [s1|] eqn:Hstep; [|done].
    eauto using inv_step.
Qed.

(** Every state the process can reach. *)
Lemma reachable_inv env w evs s : exec env evs (init w) = Some s -> Inv s.
Proof. apply inv_exec, inv_init. Qed.

End StopFacts.

(** C1, on the code.  In the historical runner both [shutdownOnSignal]
    and the deferred closure of [run] call [Stop], and [run] can only
    return [nil] after [shutdownOnSignal] has closed
    [closedOnShutdownCh], which it does after its own [Stop].  So every
    clean shutdown has called [Stop] twice, not once. *)
Theorem clean_shutdown_stops_twice
        (env : Historical.Env) (w : World) (evs : list Historical.Event)
        (s : Historical.State) :
  Historical.exec env evs (Historical.init w) = Some s ->
  Historical.run_result s = Some (Ok ()) ->
  Historical.stops s = 2%nat.
Proof.
  intros Hrun Hok. apply StopFacts.reachable_inv in Hrun as [H1 H2 H3 H4 H5 H6].
  assert (Hret : Historical.returns_ok s).
  { unfold Historical.returns_ok. rewrite Hok. by destruct (Historical.pc s) as [| | | | | | | | | |[]| | |]. }
  destruct (H3 Hret) as [Hclosed Hnet].
  rewrite H1. unfold Historical.deferred_ran, Historical.listener_ran.
  rewrite Hok, (H2 Hclosed). by destruct (Historical.net s).
Qed.

Lemma clean_shutdown_stops_twice_witness :
  exists s,
    Historical.exec (Scenario.hist_env Scenario.good_lib) Scenario.normal_shutdown
                    (Historical.init Scenario.fresh_host) = Some s /\
    Historical.pc s = Historical.PExit 0 /\
    Historical.stops s = 2%nat.
Proof.
  assert (H : (fun s => (Historical.pc s, Historical.run_result s))
                <$> Historical.exec (Scenario.hist_env Scenario.good_lib)
                                    Scenario.normal_shutdown
                                    (Historical.init Scenario.fresh_host)
              = Some (Historical.PExit 0, Some (Ok ()))).
  { vm_compute. reflexivity. }
  apply fmap_Some in H as (s & Hrun & Hs).
  injection Hs as Hpc Hres.
  exists s. split; [exact Hrun|]. split; [exact (eq_sym Hpc)|].
  exact (clean_shutdown_stops_twice _ _ _ s Hrun (eq_sym Hres)).
Defined.

Module StopCases.
Import Historical.

(** No run calls [Stop] more than twice. *)
Lemma stops_at_most_twice env w evs s :
  exec env evs (init w) = Some s -> (stops s <= 2)%nat.
Proof.
  intros [H1 _ _ _ _ _]%StopFacts.reachable_inv. rewrite H1.
  unfold deferred_ran, listener_ran.
  destruct (run_result s), (net s), (lpc s); simpl; lia.
Qed.

(** A failure after bootstrap, with no signal taken up by the
    listener: the deferred closure alone stops the network. *)
Lemma failure_without_signal_stops_once env w evs s e :
  exec env evs (init w) = Some s ->
  run_result s = Some (Err e) ->
  net s <> None ->
  lpc s = LNone \/ lpc s = LRecv ->
  stops s = 1%nat.
Proof.
  intros [H1 _ _ _ _ _]%StopFacts.reachable_inv Hres Hnet Hl. rewrite H1.
  unfold deferred_ran, listener_ran. rewrite Hres.
  destruct (net s); [|done]. by destruct Hl as [-> | ->].
Qed.

(** The nodes never get healthy, no signal: one [Stop], exit 1. *)
Example health_failure_run :
  (fun s => (pc s, stops s))
    <$> exec (Scenario.hist_env Scenario.sick_lib) Scenario.health_failure
             (init Scenario.fresh_host)
  = Some (PExit 1, 1%nat).
Proof. vm_compute. reflexivity. Qed.

(** SIGTERM during the first health wait: the listener stops the
    network, the wait fails, the deferred closure stops it again. *)
Example signal_during_wait_run :
  (fun s => (pc s, stops s))
    <$> exec (Scenario.hist_env Scenario.sick_lib) Scenario.signal_during_wait
             (init Scenario.fresh_host)
  = Some (PExit 1, 2%nat).
Proof. vm_compute. reflexivity. Qed.

(** SIGINT between the bootstrap and [signal.Notify]: the default
    action ends the process, and nobody has stopped the network. *)
Example early_signal_run :
  (fun s => (pc s, nw_nodes <$> net s, stops s))
    <$> exec (Scenario.hist_env Scenario.good_lib) Scenario.early_signal
             (init Scenario.fresh_host)
  = Some (PKilled SIGINT, Some 5%nat, 0%nat).
Proof. vm_compute. reflexivity. Qed.

End StopCases.

(** ** The historical runner: exit status, history and port shift *)

Module MainFacts.
Import Historical.
Import StopFacts.

Ltac aux_close :=
  state_simpl; simplify_eq; state_simpl;
  try done.

Lemma data_inv_init w : DataInv (init w).
Proof. by split. Qed.

Lemma data_inv_main_step env s s' :
  Inv s -> DataInv s -> main_step env s = Some s' -> DataInv s'.
Proof.
  intros [H1 H2 H3 H4 H5 H6] [He Hs] Hstep.
  unfold DataInv, exit_matches, shift_matches in *. open_state s.
  unfold main_step in Hstep. state_simpl.
  destruct pc0.
  - unfold main_prologue in Hstep. state_simpl.
    assert (result0 = None) as -> by (destruct result0; [exfalso; by apply H4|done]).
    rewrite (H6 I) in *.
    destruct (logger_fault env); [by aux_close|].
    destruct (load_history env world0) as [w [| |]]; by aux_close.
  - unfold run_setup in Hstep. state_simpl.
    destruct (NewDefaultConfig _ _); [by aux_close|].
    destruct (shift_ports _ _); [|by aux_close].
    destruct (NewNetwork _ _ _); by aux_close.
  - destruct net0 as [nw|]; [|done].
    unfold run_record in Hstep. state_simpl.
    destruct (nw_GetNetworkID nw); [by aux_close|].
    destruct (json_MarshalIndent _); [by aux_close|].
    destruct (os_WriteFile _ _ _ _ _) as [w [e|]]; by aux_close.
  - destruct net0 as [nw|]; by aux_close.
  - destruct net0 as [nw|]; [|done].
    destruct (nw_Healthy _ _ _); [|destruct k as [|[|k]]]; by aux_close.
  - destruct net0 as [nw|]; [|done].
    destruct (nw_GetNodeNames nw); by aux_close.
  - destruct net0 as [nw|]; [|done].
    destruct (copy_plugins _ _ _ _ _ _) as [w [e|]]; by aux_close.
  - destruct net0 as [nw|]; [|done].
    destruct (nw_CreateBlockchains _ _); by aux_close.
  - destruct net0 as [nw|]; [|done].
    destruct (publish_urls _ _ _ _ _ _) as [[urls lg]| |]; by aux_close.
  - destruct net0 as [nw|]; [|done].
    destruct closed0; by aux_close.
  - destruct net0 as [nw|]; [|done].
    destruct (nw_Stop _ _); by aux_close.
  - destruct r as [[]| |]; aux_close.
    split; [|done]. split; [done|]. apply last_snoc.
  - done.
  - done.
Qed.

Lemma data_inv_listener_step s s' :
  DataInv s -> shutdownOnSignal_step s = Some s' -> DataInv s'.
Proof.
  intros [He Hs] Hstep.
  unfold DataInv, exit_matches, shift_matches in *. open_state s.
  unfold shutdownOnSignal_step in Hstep. state_simpl.
  destruct lpc0.
  - by destruct pc0.
  - destruct sigbuf0; destruct pc0; by aux_close.
  - destruct net0 as [nw|]; [|by destruct pc0].
    destruct (nw_Stop nw (S stops0)) eqn:E; destruct pc0;
      rewrite ?E in Hstep; by aux_close.
  - destruct pc0; by aux_close.
  - by destruct pc0.
Qed.

Lemma data_inv_signal_step sig s s' :
  DataInv s -> signal_step sig s = Some s' -> DataInv s'.
Proof.
  intros [He Hs] Hstep.
  unfold DataInv, exit_matches, shift_matches in *. open_state s.
  unfold signal_step in Hstep. state_simpl.
  destruct notified0, sigbuf0, pc0; by aux_close.
Qed.

Lemma data_inv_exec env evs : forall s s',
  Inv s -> DataInv s -> exec env evs s = Some s' -> DataInv s'.
Proof.
  induction evs as [|ev evs IH]; intros s s' Hi Hd Hrun; simpl in Hrun.
  - by simplify_eq.
  - destruct (step env ev s) as [s1|] eqn:Hstep; [|done].
    apply (IH s1); [by eapply inv_step| |done].
    destruct ev; simpl in Hstep;
      eauto using data_inv_main_step, data_inv_listener_step,
                  data_inv_signal_step.
Qed.

Lemma reachable_data_inv env w evs s :
  exec env evs (init w) = Some s -> DataInv s.
Proof. apply data_inv_exec; [apply inv_init | apply data_inv_init]. Qed.

(** After [run] the exit status tells how it ended: 0 for [nil], 1
    after an error, which has just been logged as fatal. *)
Lemma exit_status_after_run env w evs s code :
  exec env evs (init w) = Some s ->
  pc s = PExit code ->
  match run_result s with
  | Some (Ok _) => code = 0
  | Some (Err e) => code = 1 /\ last (logs s) = Some (log_fatal e)
  | Some Panic => code = 2
  | None => net s = None
  end.
Proof.
  intros [He _]%reachable_data_inv Hpc. unfold exit_matches in He.
  by rewrite Hpc in He.
Qed.

(** How loading the history fails. *)
Lemma load_history_unreadable env w w1 f w2 err :
  os_Stat (faults env) w (configFilePath env) = (w1, inr f) ->
  os_ReadFile (faults env) w1 (configFilePath env) = (w2, inl err) ->
  load_history env w
  = (w2, LoadFailed (mkLog LError "Error reading file:" [FError err])).
Proof. intros Hst Hrd. unfold load_history. by rewrite Hst, Hrd. Qed.

Lemma load_history_unparseable env w w1 f w2 data err :
  os_Stat (faults env) w (configFilePath env) = (w1, inr f) ->
  os_ReadFile (faults env) w1 (configFilePath env) = (w2, inr data) ->
  json_Unmarshal env data = inl err ->
  load_history env w
  = (w2, LoadFailed (mkLog LError "Error unmarshalling JSON:" [FError err])).
Proof. intros Hst Hrd Hun. unfold load_history. by rewrite Hst, Hrd, Hun. Qed.

Lemma load_history_absent env w w1 err :
  os_Stat (faults env) w (configFilePath env) = (w1, inl err) ->
  load_history env w = (w1, NoHistory).
Proof. intros Hst. unfold load_history. by rewrite Hst. Qed.

Lemma load_history_failed_is_error env w w' entry :
  load_history env w = (w', LoadFailed entry) -> lvl entry = LError.
Proof.
  unfold load_history. repeat (case_match; simplify_eq/=); try done.
  all: by intros; simplify_eq.
Qed.

(** What [main] logs when it gives up on the history. *)
Lemma load_history_failed_entry env w w' entry :
  load_history env w = (w', LoadFailed entry) ->
  exists err,
    entry = mkLog LError "Error reading file:" [FError err] \/
    entry = mkLog LError "Error unmarshalling JSON:" [FError err].
Proof.
  unfold load_history. repeat (case_match; simplify_eq/=); try done.
  all: intros; simplify_eq; eauto.
Qed.

End MainFacts.

(** C7, on the code.  When the history file exists but cannot be read
    or parsed, [main] logs the error and returns: the process ends with
    status 0, not 1, and [run] is never entered. *)
Theorem history_error_exits_zero
        (env : Historical.Env) (w w' : World) (entry : LogEntry) :
  Historical.logger_fault env = None ->
  Historical.load_history env w = (w', Historical.LoadFailed entry) ->
  exists s,
    Historical.exec env [Historical.EvMain] (Historical.init w) = Some s /\
    Historical.pc s = Historical.PExit 0 /\
    Historical.logs s = [entry] /\
    lvl entry = LError /\
    Historical.run_result s = None /\
    Historical.net s = None.
Proof.
  intros Hlog Hload. simpl. unfold Historical.main_step. simpl.
  unfold Historical.main_prologue. rewrite Hlog. simpl. rewrite Hload.
  eexists. split; [done|]. split_and!; try done.
  by eapply MainFacts.load_history_failed_is_error.
Qed.

Lemma history_error_exits_zero_witness :
  exists s,
    Historical.exec (Scenario.hist_env Scenario.good_lib) [Historical.EvMain]
                    (Historical.init Scenario.garbled_host) = Some s /\
    Historical.pc s = Historical.PExit 0.
Proof.
  destruct (history_error_exits_zero
              (Scenario.hist_env Scenario.good_lib) Scenario.garbled_host
              (Historical.load_history (Scenario.hist_env Scenario.good_lib)
                                       Scenario.garbled_host).1
              (mkLog LError "Error unmarshalling JSON:"
                     [FError (ErrorString
                        "invalid character 'o' looking for beginning of value")]))
    as (s & Hrun & Hpc & _).
  - reflexivity.
  - vm_compute. reflexivity.
  - exists s. split; [exact Hrun | exact Hpc].
Defined.

Module HistoryFacts.
Import Historical.
Import StopFacts.

Lemma compute_shift_exact (cfgs : list NetworkConfig) :
  GoInt.slice_fits 16 cfgs ->
  compute_shift cfgs = 10 * Z.of_nat (length cfgs).
Proof.
  unfold GoInt.slice_fits, compute_shift, defaultShift. intros H.
  apply GoIntFacts.mul_small. unfold GoInt.min_int, GoInt.max_int in *. lia.
Qed.

(** The bootstrap step fixes the shift from the history as loaded and
    leaves the history alone. *)
Lemma run_setup_shift env s s' :
  pc s = PSetup -> main_step env s = Some s' -> pc s' = PRecord ->
  shift s' = compute_shift (configs s) /\ configs s' = configs s.
Proof.
  intros Hpc Hstep Hpc'. unfold main_step in Hstep. rewrite Hpc in Hstep.
  unfold run_setup in Hstep.
  destruct (NewDefaultConfig _ _); [by simplify_eq|].
  destruct (shift_ports _ _); [|by simplify_eq].
  destruct (NewNetwork _ _ _); by simplify_eq.
Qed.

(** Once the process has exited nothing runs any more. *)
Lemma exited_is_final env s code ev :
  pc s = PExit code -> step env ev s = None.
Proof.
  intros Hpc. destruct ev; simpl.
  - unfold main_step. by rewrite Hpc.
  - unfold shutdownOnSignal_step, alive. by rewrite Hpc.
  - unfold signal_step, alive. by rewrite Hpc.
Qed.

Lemma os_WriteFile_ok env w p data perm :
  write_fault env p = None ->
  (forall f, files w !! p = Some f -> f_kind f <> Directory) ->
  exists w' f, os_WriteFile env w p data perm = (w', None) /\
               files w' !! p = Some f /\ f_data f = data /\
               forall q, q <> p -> files w' !! q = files w !! q.
Proof.
  intros Hf Hdir. unfold os_WriteFile, log_call. rewrite Hf. simpl.
  destruct (files w !! p) as [f|] eqn:Hp.
  - specialize (Hdir f eq_refl).
    destruct (f_kind f) eqn:Hk; [|done|].
    all: eexists _, _; split; [done|]; simpl; rewrite lookup_insert_eq.
    all: split_and!; [done|done|].
    all: by intros q Hq; rewrite lookup_insert_ne.
  - eexists _, _. split; [done|]. simpl. rewrite lookup_insert_eq.
    split_and!; [done|done|]. by intros q Hq; rewrite lookup_insert_ne.
Qed.

Lemma exec_main env w :
  exec env [EvMain] (init w) = Some (main_prologue env (init w)).
Proof. reflexivity. Qed.

Lemma main_prologue_loaded env w w1 ld :
  logger_fault env = None ->
  load_history env w = (w1, ld) ->
  main_prologue env (init w)
  = match ld with
    | LoadFailed entry => set_pc (PExit 0) (add_logs [entry] (set_world w1 (init w)))
    | LoadedOk cfgs =>
        set_pc PSetup
          (set_configs cfgs
             (set_world (os_MkdirAll (faults env)
                           (os_RemoveAll w1 (workDir env)) (workDir env) perm_0777)
                        (init w)))
    | NoHistory =>
        set_pc PSetup
          (set_world (os_MkdirAll (faults env)
                        (os_RemoveAll w1 (workDir env)) (workDir env) perm_0777)
                     (init w))
    end.
Proof.
  intros Hlog Hload. unfold main_prologue. rewrite Hlog.
  change (world (init w)) with w. rewrite Hload. by destruct ld.
Qed.

(** Once the listener exists the history in memory is never touched
    again. *)
Lemma configs_frozen_step env ev s s' :
  ~ before_listener s -> step env ev s = Some s' ->
  ~ before_listener s' /\ configs s' = configs s.
Proof.
  intros Hpast Hstep. open_state s. destruct ev; simpl in Hstep.
  - unfold main_step in Hstep. state_simpl.
    destruct pc0; try (by destruct Hpast); try done.
    all: destruct net0 as [nw|]; try done.
    + by simplify_eq.
    + destruct (nw_Healthy _ _ _); [|destruct k as [|[|k]]]; by simplify_eq.
    + destruct (nw_GetNodeNames nw); by simplify_eq.
    + destruct (copy_plugins _ _ _ _ _ _) as [w [e|]]; by simplify_eq.
    + destruct (nw_CreateBlockchains _ _); by simplify_eq.
    + destruct (publish_urls _ _ _ _ _ _) as [[urls lg]| |]; by simplify_eq.
    + destruct closed0; by simplify_eq.
    + destruct (nw_Stop _ _); by simplify_eq.
    + destruct r; by simplify_eq.
    + destruct r; by simplify_eq.
  - unfold shutdownOnSignal_step in Hstep. state_simpl.
    destruct lpc0.
    + by destruct pc0.
    + destruct sigbuf0, pc0; by simplify_eq.
    + destruct net0 as [nw|]; [|by destruct pc0].
      destruct (nw_Stop nw (S stops0)) eqn:E, pc0; rewrite ?E in Hstep;
        by simplify_eq.
    + destruct pc0; by simplify_eq.
    + by destruct pc0.
  - unfold signal_step in Hstep. state_simpl.
    destruct pc0; try done; destruct notified0, sigbuf0; by simplify_eq.
Qed.

Lemma configs_frozen env evs : forall s s',
  ~ before_listener s -> exec env evs s = Some s' -> configs s' = configs s.
Proof.
  induction evs as [|ev evs IH]; intros s s' Hpast Hrun; simpl in Hrun.
  - by simplify_eq.
  - destruct (step env ev s) as [s1|] eqn:Hstep; [|done].
    destruct (configs_frozen_step env ev s s1 Hpast Hstep) as [Hpast1 <-].
    by apply IH.
Qed.


(** Once [run] is on its way out, neither the history in memory nor
    the files change any more. *)
Lemma leaving_frozen_step env ev s s' :
  in_main s \/ (exists r, pc s = PReturn r) -> step env ev s = Some s' ->
  (in_main s' \/ exists r, pc s' = PReturn r) /\
  configs s' = configs s /\ world s' = world s.
Proof.
  intros Hout Hstep. open_state s. destruct ev; simpl in Hstep.
  - unfold main_step in Hstep. state_simpl.
    destruct pc0; try (by destruct Hout as [[]|[r [=]]]); try done.
    + destruct net0 as [nw|]; [|done].
      destruct (nw_Stop _ _); simplify_eq; state_simpl; by split_and!; [left|..].
    + destruct r; simplify_eq; state_simpl; by split_and!; [left|..].
  - unfold shutdownOnSignal_step in Hstep. state_simpl.
    destruct lpc0.
    + by destruct pc0.
    + destruct sigbuf0, pc0; simplify_eq; state_simpl; by split_and!.
    + destruct net0 as [nw|]; [|by destruct pc0].
      destruct (nw_Stop nw (S stops0)) eqn:E, pc0; rewrite ?E in Hstep;
        simplify_eq; state_simpl; by split_and!.
    + destruct pc0; simplify_eq; state_simpl; by split_and!.
    + by destruct pc0.
  - unfold signal_step in Hstep. state_simpl.
    destruct pc0; try done; destruct notified0, sigbuf0;
      simplify_eq; state_simpl; by split_and!; [try (by left); try (by right)|..].
Qed.

Lemma leaving_frozen env evs : forall s s',
  in_main s \/ (exists r, pc s = PReturn r) -> exec env evs s = Some s' ->
  configs s' = configs s /\ world s' = world s.
Proof.
  induction evs as [|ev evs IH]; intros s s' Hout Hrun; simpl in Hrun.
  - by simplify_eq.
  - destruct (step env ev s) as [s1|] eqn:Hstep; [|done].
    destruct (leaving_frozen_step env ev s s1 Hout Hstep) as (Hout1 & <- & <-).
    by apply IH.
Qed.

End HistoryFacts.

(** C3, as the claim has it, fails: with a history file that exists
    but may not be read, [main] logs the error and returns; the process
    has exited with no network and takes no further step, so no run
    proceeds with a shift of 0. *)
Lemma unreadable_history_stops_the_run :
  exists s,
    Historical.exec Scenario.hist_env_unreadable [Historical.EvMain]
                    (Historical.init Scenario.garbled_host) = Some s /\
    Historical.pc s = Historical.PExit 0 /\
    Historical.net s = None /\
    forall ev, Historical.step Scenario.hist_env_unreadable ev s = None.
Proof.
  assert (H : (fun s => (Historical.pc s, nw_nodes <$> Historical.net s))
                <$> Historical.exec Scenario.hist_env_unreadable
                                    [Historical.EvMain]
                                    (Historical.init Scenario.garbled_host)
              = Some (Historical.PExit 0, None)).
  { vm_compute. reflexivity. }
  apply fmap_Some in H as (s & Hrun & Hs). injection Hs as Hpc Hnet.
  exists s. split_and!; [done|done| |].
  - by destruct (Historical.net s).
  - intros ev. by eapply HistoryFacts.exited_is_final.
Qed.

(** C3, amended.  The port shift is ten times the number of records in
    the history.  When [os.Stat] fails on the history file (it is
    absent) [main] enters [run] with an empty history and the shift is
    0; when the file is read and parsed, [run] is entered with its [k]
    records and the shift is [10 * k]; when the file exists but cannot
    be read or parsed, [main] logs the error, that one entry being all
    it has logged, and the process exits with no run. *)
Theorem port_shift_contract (env : Historical.Env) (w : World) :
  Historical.logger_fault env = None ->
  (forall cfgs, GoInt.slice_fits 16 cfgs ->
     Historical.compute_shift cfgs = 10 * Z.of_nat (length cfgs))
  /\
  (forall w1 err,
     os_Stat (Historical.faults env) w (Historical.configFilePath env)
     = (w1, inl err) ->
     exists s,
       Historical.exec env [Historical.EvMain] (Historical.init w) = Some s /\
       Historical.pc s = Historical.PSetup /\
       Historical.configs s = [] /\
       forall s', Historical.main_step env s = Some s' ->
                  Historical.pc s' = Historical.PRecord ->
                  Historical.shift s' = 0)
  /\
  (forall w1 cfgs,
     Historical.load_history env w = (w1, Historical.LoadedOk cfgs) ->
     GoInt.slice_fits 16 cfgs ->
     exists s,
       Historical.exec env [Historical.EvMain] (Historical.init w) = Some s /\
       Historical.pc s = Historical.PSetup /\
       Historical.configs s = cfgs /\
       forall s', Historical.main_step env s = Some s' ->
                  Historical.pc s' = Historical.PRecord ->
                  Historical.shift s' = 10 * Z.of_nat (length cfgs))
  /\
  (forall w1 entry,
     Historical.load_history env w = (w1, Historical.LoadFailed entry) ->
     exists s,
       Historical.exec env [Historical.EvMain] (Historical.init w) = Some s /\
       Historical.pc s = Historical.PExit 0 /\
       Historical.logs s = [entry] /\
       (exists err,
          entry = mkLog LError "Error reading file:" [FError err] \/
          entry = mkLog LError "Error unmarshalling JSON:" [FError err]) /\
       Historical.net s = None /\
       forall ev, Historical.step env ev s = None).
Proof.
  intros Hlog. split_and!.
  - apply HistoryFacts.compute_shift_exact.
  - intros w1 err Hst.
    apply MainFacts.load_history_absent in Hst.
    rewrite HistoryFacts.exec_main,
      (HistoryFacts.main_prologue_loaded env w w1 _ Hlog Hst).
    eexists. split; [done|]. split_and!; [done|done|].
    intros s' Hstep Hpc'.
    by apply HistoryFacts.run_setup_shift in Hstep as [-> _].
  - intros w1 cfgs Hload Hfit.
    rewrite HistoryFacts.exec_main,
      (HistoryFacts.main_prologue_loaded env w w1 _ Hlog Hload).
    eexists. split; [done|]. split_and!; [done|done|].
    intros s' Hstep Hpc'.
    apply HistoryFacts.run_setup_shift in Hstep as [-> _]; [|done|done].
    by apply HistoryFacts.compute_shift_exact.
  - intros w1 entry Hload.
    rewrite HistoryFacts.exec_main,
      (HistoryFacts.main_prologue_loaded env w w1 _ Hlog Hload).
    eexists. split; [done|]. split_and!; [done|done| |done|].
    + by eapply MainFacts.load_history_failed_entry.
    + intros ev. by eapply HistoryFacts.exited_is_final.
Qed.

(** No history file: the run is entered with shift 0.  A history file
    that is not JSON: the error is logged and the process ends. *)
Lemma port_shift_contract_witness :
  Historical.compute_shift Scenario.two_records = 20 /\
  (exists s,
     Historical.exec (Scenario.hist_env Scenario.good_lib) [Historical.EvMain]
                     (Historical.init Scenario.fresh_host) = Some s /\
     Historical.pc s = Historical.PSetup /\
     Historical.configs s = []) /\
  (exists s,
     Historical.exec (Scenario.hist_env Scenario.good_lib) [Historical.EvMain]
                     (Historical.init Scenario.garbled_host) = Some s /\
     Historical.pc s = Historical.PExit 0 /\
     Historical.logs s
     = [mkLog LError "Error unmarshalling JSON:"
              [FError (ErrorString
                 "invalid character 'o' looking for beginning of value")]]).
Proof.
  destruct (port_shift_contract (Scenario.hist_env Scenario.good_lib)
                                Scenario.fresh_host eq_refl)
    as (Hshift & Habsent & _ & _).
  destruct (port_shift_contract (Scenario.hist_env Scenario.good_lib)
                                Scenario.garbled_host eq_refl)
    as (_ & _ & _ & Hfailed).
  split_and!.
  - apply (Hshift Scenario.two_records).
    unfold GoInt.slice_fits, GoInt.max_int. simpl. lia.
  - destruct (Habsent
                (os_Stat no_faults Scenario.fresh_host Scenario.history_path).1
                (ErrNotExist Scenario.history_path))
      as (s & Hrun & Hpc & Hcfg & _).
    + vm_compute. reflexivity.
    + exists s. split_and!; [exact Hrun | exact Hpc | exact Hcfg].
  - destruct (Hfailed
                (Historical.load_history (Scenario.hist_env Scenario.good_lib)
                                         Scenario.garbled_host).1
                (mkLog LError "Error unmarshalling JSON:"
                       [FError (ErrorString
                          "invalid character 'o' looking for beginning of value")]))
      as (s & Hrun & Hpc & Hlogs & _).
    + apply pair_from_snd. vm_compute. reflexivity.
    + exists s. split_and!; [exact Hrun | exact Hpc | exact Hlogs].
Defined.

(** ** The history file determines the history *)

Module JsonFacts.
Import Historical.

Lemma append_assoc (a b c : string) : (a +:+ b) +:+ c = a +:+ b +:+ c.
Proof.
  induction a as [|x a IH]; [done|].
  change (String x ((a +:+ b) +:+ c) = String x (a +:+ b +:+ c)).
  by rewrite IH.
Qed.

Lemma string_of_uint_free (c : Ascii.ascii) (d : Decimal.uint) :
  free_of c "0123456789" -> free_of c (NilEmpty.string_of_uint d).
Proof. simpl. intros H. induction d; simpl; intuition. Qed.

(** A decimal rendering holds digits and at most a leading minus. *)
Lemma itoa_free (c : Ascii.ascii) (z : Z) :
  free_of c "-0123456789" -> free_of c (itoa z).
Proof.
  intros [Hm Hd]. unfold itoa.
  destruct (Z.to_int z); simpl; [|split; [done|]];
    by apply string_of_uint_free.
Qed.

(** The first occurrence of a separator splits a text in one way. *)
Lemma split_at_separator (c : Ascii.ascii) (s1 s2 x y : string) :
  free_of c s1 -> free_of c s2 ->
  s1 +:+ String c "" +:+ x = s2 +:+ String c "" +:+ y -> s1 = s2 /\ x = y.
Proof.
  revert s2. induction s1 as [|a s1 IH]; intros [|b s2] F1 F2 H.
  - change (String c x = String c y) in H. by injection H as ->.
  - change (String c x = String b (s2 +:+ String c "" +:+ y)) in H.
    injection H as -> _. by destruct F2.
  - change (String a (s1 +:+ String c "" +:+ x) = String c y) in H.
    injection H as -> _. by destruct F1.
  - change (String a (s1 +:+ String c "" +:+ x)
            = String b (s2 +:+ String c "" +:+ y)) in H.
    injection H as -> H. destruct F1 as [_ F1], F2 as [_ F2].
    by destruct (IH s2 F1 F2 H) as [-> ->].
Qed.

Lemma itoa_then_separator (c : Ascii.ascii) (a a' : Z) (x y : string) :
  free_of c "-0123456789" ->
  itoa a +:+ String c "" +:+ x = itoa a' +:+ String c "" +:+ y ->
  a = a' /\ x = y.
Proof.
  intros Hc H. apply split_at_separator in H as [Ha ->]; [|by apply itoa_free..].
  by apply ScenarioFacts.itoa_inj in Ha as ->.
Qed.

Ltac cancel_prefix H := repeat apply (inj (String.append _)) in H.

(** One record, followed by anything, can be read back in one way. *)
Lemma marshal_record_inj (r r' : NetworkConfig) (x y : string) :
  marshal_record r +:+ x = marshal_record r' +:+ y -> r = r' /\ x = y.
Proof.
  destruct r as [a b], r' as [a' b']. unfold marshal_record, nl.
  cbn [NetworkID PortShifting]. rewrite !append_assoc. intros H.
  cancel_prefix H.
  apply itoa_then_separator in H as [-> H];
    [|vm_compute; intuition discriminate].
  cancel_prefix H.
  apply itoa_then_separator in H as [-> H];
    [|vm_compute; intuition discriminate].
  cancel_prefix H. by subst.
Qed.

(** A non-empty history, followed by the closing line, likewise. *)
Lemma marshal_records_inj (l : list NetworkConfig) :
  forall c c' l',
    marshal_records (c :: l) +:+ nl +:+ "]"
    = marshal_records (c' :: l') +:+ nl +:+ "]" ->
    c :: l = c' :: l'.
Proof.
  induction l as [|d l IH]; intros c c' [|d' l'] H.
  - cbn [marshal_records] in H. by apply marshal_record_inj in H as [-> _].
  - cbn [marshal_records] in H. rewrite !append_assoc in H.
    apply marshal_record_inj in H as [_ H]. by vm_compute in H.
  - cbn [marshal_records] in H. rewrite !append_assoc in H.
    apply marshal_record_inj in H as [_ H]. by vm_compute in H.
  - change (marshal_records (c :: d :: l))
      with (marshal_record c +:+ "," +:+ nl +:+ marshal_records (d :: l)) in H.
    change (marshal_records (c' :: d' :: l'))
      with (marshal_record c' +:+ "," +:+ nl +:+ marshal_records (d' :: l')) in H.
    rewrite !append_assoc in H.
    apply marshal_record_inj in H as [-> H]. cancel_prefix H.
    by rewrite (IH _ _ _ H).
Qed.

(** Two histories with the same file are the same history. *)
Lemma json_MarshalIndent_inj (l l' : list NetworkConfig) :
  json_MarshalIndent l = json_MarshalIndent l' -> l = l'.
Proof.
  unfold json_MarshalIndent. intros [= H].
  apply (f_equal String.string_of_list_byte) in H.
  rewrite !String.string_of_list_byte_of_string in H.
  destruct l as [|c l], l' as [|c' l']; [done|by vm_compute in H..|].
  cancel_prefix H. by apply marshal_records_inj.
Qed.

End JsonFacts.

(** C8, as the claim has it, fails: the bootstrap succeeds, the network
    then does not tell its id, and [run] returns before it has appended
    anything: the process ends with the history in memory as loaded
    and no history file written. *)
Lemma bootstrap_without_record :
  exists s,
    Historical.exec (Scenario.hist_env Scenario.nameless_lib)
                    (replicate 5 Historical.EvMain)
                    (Historical.init Scenario.fresh_host) = Some s /\
    Historical.pc s = Historical.PExit 1 /\
    Historical.net s <> None /\
    Historical.configs s = [] /\
    files (Historical.world s) !! Scenario.history_path = None.
Proof.
  assert (H : (fun s => (Historical.pc s, nw_nodes <$> Historical.net s,
                         Historical.configs s,
                         files (Historical.world s) !! Scenario.history_path))
                <$> Historical.exec (Scenario.hist_env Scenario.nameless_lib)
                                    (replicate 5 Historical.EvMain)
                                    (Historical.init Scenario.fresh_host)
              = Some (Historical.PExit 1, Some 5%nat, [], None)).
  { vm_compute. reflexivity. }
  apply fmap_Some in H as (s & Hrun & Hs). injection Hs as Hpc Hnet Hcfg Hfile.
  exists s. split_and!; [done|done| |done|done].
  by destruct (Historical.net s).
Qed.

(** C8, amended.  In a state reached right after a successful
    bootstrap: when the network tells its id and the history file can
    be written, the next step of [run] appends exactly one record,
    [{NetworkID, PortShifting}] with the network's id and this run's
    shift, to the history in memory, and nothing later in the run
    touches that history again; every record loaded before is still
    there, at its index and unchanged; and the history file then holds
    the indented JSON of the whole new list, which no other list has.
    When the network does not tell its id, [run] returns that error
    with nothing appended and nothing written, and neither the history
    in memory nor the files change for the rest of the run. *)
Theorem history_append_contract
        (env : Historical.Env) (w : World) (evs : list Historical.Event)
        (s : Historical.State) (nw : Network) :
  Historical.exec env evs (Historical.init w) = Some s ->
  Historical.pc s = Historical.PRecord ->
  Historical.net s = Some nw ->
  (forall networkID,
     nw_GetNetworkID nw = inr networkID ->
     write_fault (Historical.faults env) (Historical.configFilePath env) = None ->
     (forall f, files (Historical.world s) !! Historical.configFilePath env = Some f ->
                f_kind f <> Directory) ->
     exists s',
       Historical.main_step env s = Some s' /\
       Historical.pc s' = Historical.PAwait 1 /\
       Historical.configs s'
       = Historical.configs s
         ++ [Historical.mkNetworkConfig networkID
               (Historical.compute_shift (Historical.configs s))] /\
       length (Historical.configs s') = S (length (Historical.configs s)) /\
       (forall i r, Historical.configs s !! i = Some r ->
                    Historical.configs s' !! i = Some r) /\
       (forall evs' s'', Historical.exec env evs' s' = Some s'' ->
                         Historical.configs s'' = Historical.configs s') /\
       exists f,
         files (Historical.world s') !! Historical.configFilePath env = Some f /\
         Historical.json_MarshalIndent (Historical.configs s') = inr (f_data f) /\
         forall l, Historical.json_MarshalIndent l = inr (f_data f) ->
                   l = Historical.configs s')
  /\
  (forall err,
     nw_GetNetworkID nw = inl err ->
     exists s',
       Historical.main_step env s = Some s' /\
       Historical.pc s' = Historical.PReturn (Err err) /\
       forall evs' s'', Historical.exec env evs' s' = Some s'' ->
                        Historical.configs s'' = Historical.configs s /\
                        Historical.world s'' = Historical.world s).
Proof.
  intros Hrun Hpc Hnet. split.
  - intros networkID Hid Hwf Hdir.
    apply MainFacts.reachable_data_inv in Hrun as [_ Hshift].
    unfold Historical.shift_matches in Hshift. rewrite Hpc in Hshift.
    unfold Historical.main_step. rewrite Hpc, Hnet.
    unfold Historical.run_record. rewrite Hid.
    StopFacts.state_simpl.
    destruct (Historical.json_MarshalIndent _) as [e|text] eqn:Hm; [done|].
    destruct (HistoryFacts.os_WriteFile_ok (Historical.faults env)
                (Historical.world s) (Historical.configFilePath env) text perm_0644
                Hwf Hdir) as (w' & f & Hw & Hf & Hdata & _).
    destruct s. StopFacts.state_simpl. simpl in *. rewrite Hw.
    eexists. split; [done|]. StopFacts.state_simpl. subst.
    split_and!; try done.
    + rewrite length_app. simpl. lia.
    + intros i r Hi. by apply lookup_app_l_Some.
    + intros evs' s'' Hrun'.
      refine (HistoryFacts.configs_frozen env evs' _ s'' _ Hrun').
      by intros [].
    + exists f. split; [done|]. split; [by rewrite Hm|].
      intros l Hl. apply JsonFacts.json_MarshalIndent_inj. by rewrite Hl, Hm.
  - intros err Hid.
    unfold Historical.main_step. rewrite Hpc, Hnet.
    unfold Historical.run_record. rewrite Hid.
    eexists. split; [done|]. split; [done|].
    intros evs' s'' Hrun'.
    apply HistoryFacts.leaving_frozen in Hrun' as [Hc Hw]; [by split|].
    right. by eexists.
Qed.

(** A run on a host whose history holds one record: the second record
    is appended behind the first, which stays as it was. *)
Lemma history_append_contract_witness :
  exists s',
    Historical.exec Scenario.hist_env_second
                    [Historical.EvMain; Historical.EvMain; Historical.EvMain]
                    (Historical.init Scenario.recorded_host) = Some s' /\
    Historical.configs s' = Scenario.two_records /\
    Historical.configs s' !! 0%nat = Some (Historical.mkNetworkConfig 1337 0).
Proof.
  set (env := Scenario.hist_env_second).
  assert (H : (fun s => (Historical.pc s, nw_nodes <$> Historical.net s,
                         Historical.configs s,
                         f_kind <$> files (Historical.world s) !! Scenario.history_path))
                <$> Historical.exec env [Historical.EvMain; Historical.EvMain]
                                    (Historical.init Scenario.recorded_host)
              = Some (Historical.PRecord, Some 5%nat, Scenario.one_record,
                      Some Regular)).
  { vm_compute. reflexivity. }
  apply fmap_Some in H as (s & Hrun & Hs). injection Hs as Hpc Hnet Hcfg Hfile.
  destruct (Historical.net s) as [nw|] eqn:Hnw; [|discriminate].
  assert (Hid : nw_GetNetworkID nw = inr 1337).
  { assert (Hq : (fun s => nw_GetNetworkID <$> Historical.net s)
                   <$> Historical.exec env [Historical.EvMain; Historical.EvMain]
                                       (Historical.init Scenario.recorded_host)
                 = Some (Some (inr 1337))) by (vm_compute; reflexivity).
    rewrite Hrun in Hq. simpl in Hq. rewrite Hnw in Hq. simpl in Hq.
    by injection Hq. }
  destruct (history_append_contract env Scenario.recorded_host _ s nw
              Hrun (eq_sym Hpc) Hnw) as [Happend _].
  destruct (Happend 1337 Hid eq_refl)
    as (s' & Hstep & _ & Hcfg' & _ & Hkept & _).
  { intros f Hf. change (Historical.configFilePath env) with Scenario.history_path in Hf.
    rewrite Hf in Hfile. simpl in Hfile. injection Hfile as Hk. by rewrite <- Hk. }
  exists s'. split_and!.
  - change [Historical.EvMain; Historical.EvMain; Historical.EvMain]
      with ([Historical.EvMain; Historical.EvMain] ++ [Historical.EvMain]).
    clear -Hrun Hstep. revert Hrun. generalize (Historical.init Scenario.recorded_host).
    intros s0. simpl.
    destruct (Historical.main_step env s0) as [s1|]; [|done].
    destruct (Historical.main_step env s1) as [s2|]; [|done].
    intros [= ->]. by rewrite Hstep.
  - rewrite Hcfg', <- Hcfg. reflexivity.
  - apply Hkept. by rewrite <- Hcfg.
Defined.

(** ** The end-to-end scenarios of the specification, run on the models *)

Module EndToEnd.

(** Scenario A: five nodes, one subnet; the five URLs share the one
    chain id. *)
Example scenario_A :
  (fun s => (Historical.nodeNames s, Historical.chains s, Historical.rpcUrls s))
    <$> Historical.exec (Scenario.hist_env Scenario.good_lib)
                        Scenario.normal_shutdown
                        (Historical.init Scenario.fresh_host)
  = Some (["node1"; "node2"; "node3"; "node4"; "node5"],
          ["chain0"],
          ["http://127.0.0.1:9650/ext/bc/chain0/rpc";
           "http://127.0.0.1:9652/ext/bc/chain0/rpc";
           "http://127.0.0.1:9654/ext/bc/chain0/rpc";
           "http://127.0.0.1:9656/ext/bc/chain0/rpc";
           "http://127.0.0.1:9658/ext/bc/chain0/rpc"]).
Proof. vm_compute. reflexivity. Qed.

(** Scenario B: nine nodes in three subnets of three; node index 4 is
    published under the second chain id. *)
Example scenario_B :
  let r := MultiSubnet.run
             (Scenario.multi_env 3 Scenario.good_lib Scenario.soon
                                 (Some (400 * Scenario.second, SIGINT)))
             MultiSubnet.Background 0 Scenario.fresh_host in
  MultiSubnet.r_final r = MultiSubnet.Returned (Ok ()) /\
  MultiSubnet.groups (MultiSubnet.r_specs r)
  = [["node1"; "node2"; "node3"]; ["node4"; "node5"; "node6"];
     ["node7"; "node8"; "node9"]] /\
  MultiSubnet.r_chains r = ["chain0"; "chain1"; "chain2"] /\
  MultiSubnet.r_urls r !! 4%nat = Some "http://127.0.0.1:9658/ext/bc/chain1/rpc" /\
  MultiSubnet.r_stops r = 1%nat.
Proof. vm_compute. by split_and!. Qed.

(** Scenario C: the bootstrap succeeds, the first health wait times
    out; the process exits with status 1 after exactly one [Stop]. *)
Example scenario_C :
  let '(code, _, r) :=
    MultiSubnet.main
      (Scenario.multi_env 1 Scenario.good_lib Scenario.never None)
      0 Scenario.fresh_host in
  code = Some 1 /\ MultiSubnet.r_stops <$> r = Some 1%nat.
Proof. vm_compute. by split. Qed.

End EndToEnd.

(** * Further properties of the code *)

(** ** [copy]: what it writes and what it leaves alone *)

Module CopyFacts.

(** In the file table of [OS.World], whatever happens, [copy] touches
    no entry but that of its destination. *)
Lemma copy_frame (env : Faults) (w : World) (src dst q : string) :
  q <> dst -> files (copy env w src dst).1 !! q = files w !! q.
Proof.
  intros Hq. unfold_os. simpl.
  repeat (case_match; simplify_eq/=); try done.
  all: rewrite ?lookup_insert_ne, ?lookup_alter_ne, ?lookup_insert_ne by done.
  all: done.
Qed.

(** X3.  Copying a file onto itself succeeds and empties it:
    [os.Create] truncates the file before [io.Copy] reads it, so zero
    bytes are copied and the file is left empty with mode 0777. *)
Lemma copy_onto_itself (env : Faults) (w : World) (p : string) (n : Z) :
  (copy env w p p).2 = (n, None) ->
  n = 0 /\
  exists s, files w !! p = Some s /\ f_kind s = Regular /\
            files (copy env w p p).1 !! p = Some (mkFile Regular perm_0777 []).
Proof.
  unfold_os. simpl.
  repeat (case_match; simplify_eq/=); try done.
  all: intros Hres.
  all: repeat match goal with
              | H : context [<[?a:=_]> _ !! ?a] |- _ =>
                  rewrite lookup_insert_eq in H
              | H : context [alter _ ?a _ !! ?a] |- _ =>
                  rewrite lookup_alter_eq in H
              end.
  all: simplify_eq/=.
  all: rewrite ?lookup_insert_eq.
  all: try (split; [done|]; eexists; split_and!; try done; by case_bool_decide).
Qed.

(** A successful copy leaves the destination with mode 0777. *)
Lemma copy_success_mode (env : Faults) (w : World) (src dst : string) (n : Z) :
  (copy env w src dst).2 = (n, None) ->
  exists d, files (copy env w src dst).1 !! dst = Some d /\ f_mode d = perm_0777.
Proof.
  unfold_os. simpl.
  repeat (case_match; simplify_eq/=); try done.
  all: intros _.
  all: repeat match goal with
              | H : context [<[?a:=_]> _ !! ?a] |- _ =>
                  rewrite lookup_insert_eq in H
              | H : context [alter _ ?a _ !! ?a] |- _ =>
                  rewrite lookup_alter_eq in H
              end.
  all: simplify_eq/=.
  all: rewrite ?lookup_insert_eq; by eexists.
Qed.

Section Plugins.
Variables (env : Faults) (nw : Network) (binaryPath plugin : string).

Let src := binaryPath +:+ "/plugins/" +:+ plugin.
Let dst_of (node : Node) := GetDataDir node +:+ "/plugins/" +:+ plugin.

(** A file with mode 0777 still has it after a successful
    distribution. *)
Lemma copy_plugins_keeps_mode (names : list string) : forall w w' p,
  (exists d, files w !! p = Some d /\ f_mode d = perm_0777) ->
  copy_plugins env nw binaryPath plugin w names = (w', None) ->
  exists d, files w' !! p = Some d /\ f_mode d = perm_0777.
Proof.
  induction names as [|name rest IH]; intros w w' p Hp Hrun; simpl in Hrun.
  - by simplify_eq.
  - destruct (nw_GetNode nw name) as [e|node]; [done|].
    destruct (copy env w src (dst_of node)) as [w1 [n err]] eqn:Hc.
    fold src in Hrun. fold (dst_of node) in Hrun. rewrite Hc in Hrun.
    destruct err as [e|]; [done|].
    apply (IH w1 w' p); [|done].
    destruct (decide (p = dst_of node)) as [->|Hne].
    + pose proof (copy_success_mode env w src (dst_of node) n) as H.
      rewrite Hc in H. by apply H.
    + pose proof (copy_frame env w src (dst_of node) p Hne) as H.
      rewrite Hc in H. simpl in H. by rewrite H.
Qed.

(** X8.  An error ends the plugin loop at once: whatever names come
    after the failing one, the error and the files are the same. *)
Lemma copy_plugins_fails_fast (names later : list string) : forall w w' e,
  copy_plugins env nw binaryPath plugin w names = (w', Some e) ->
  copy_plugins env nw binaryPath plugin w (names ++ later) = (w', Some e).
Proof.
  induction names as [|name rest IH]; intros w w' e Hrun; simpl in *.
  - done.
  - destruct (nw_GetNode nw name) as [e'|node]; [done|].
    destruct (copy env w _ _) as [w1 [n [e'|]]]; [done|].
    by apply IH.
Qed.

End Plugins.

End CopyFacts.

Lemma copy_onto_itself_witness :
  files (copy no_faults Scenario.fresh_host Scenario.plugin_path
              Scenario.plugin_path).1 !! Scenario.plugin_path
  = Some (mkFile Regular perm_0777 []).
Proof.
  destruct (CopyFacts.copy_onto_itself no_faults Scenario.fresh_host
              Scenario.plugin_path 0) as (_ & s & _ & _ & H).
  - vm_compute. reflexivity.
  - exact H.
Defined.

(** X4.  A failing [Chmod] wins over everything else: once the
    destination has been created, [copy] returns 0 bytes and the
    [Chmod] error whatever the transfer did, and the destination stays
    in place with the kind and mode it had after [os.Create]. *)
Theorem copy_chmod_error_wins
        (env : Faults) (w w1 w2 w3 : World) (src dst source destination : string)
        (f : File) (e : error) :
  os_Stat env w src = (w1, inr f) ->
  IsRegular f = true ->
  os_Open env w1 src = (w2, inr source) ->
  os_Create env w2 dst = (w3, inr destination) ->
  chmod_fault env dst = Some e ->
  (copy env w src dst).2 = (0, Some e) /\
  exists d3 d,
    files w3 !! dst = Some d3 /\
    files (copy env w src dst).1 !! dst = Some d /\
    f_mode d = f_mode d3 /\ f_kind d = f_kind d3.
Proof.
  intros Hst Hreg Hop Hcr Hch. unfold copy.
  rewrite Hst, Hreg. simpl. rewrite Hop, Hcr.
  assert (source = src /\ destination = dst) as [-> ->].
  { revert Hop Hcr. unfold os_Open, os_Create.
    repeat (case_match; simplify_eq/=); try done; by intros; simplify_eq. }
  assert (is_Some (files w3 !! dst)) as [d3 Hd3].
  { revert Hcr. unfold os_Create.
    repeat (case_match; simplify_eq/=); try done; intros; simplify_eq/=;
      rewrite lookup_insert_eq; eauto. }
  unfold io_Copy, os_Chmod, log_call. simpl. rewrite Hch.
  destruct (copy_fault env) as [[k e']|]; simpl.
  all: split; [done|].
  all: eexists d3, _; rewrite lookup_alter_eq, Hd3; simpl; by split_and!.
Qed.

(** X5.  When [os.Create] fails, [copy] returns that error and nothing
    has been written: the file table is as before and the only calls
    made are the [Stat], the [Open] and the failed [Create]. *)
Theorem copy_create_error_writes_nothing
        (env : Faults) (w w1 w2 w3 : World) (src dst source : string)
        (f : File) (e : error) :
  os_Stat env w src = (w1, inr f) ->
  IsRegular f = true ->
  os_Open env w1 src = (w2, inr source) ->
  os_Create env w2 dst = (w3, inl e) ->
  copy env w src dst = (w3, (0, Some e)) /\
  files w3 = files w /\
  calls w3 = calls w ++ [SysStat src; SysOpen src; SysCreate dst].
Proof.
  intros Hst Hreg Hop Hcr. unfold copy.
  rewrite Hst, Hreg. simpl. rewrite Hop, Hcr. split; [done|].
  revert Hst Hop Hcr. unfold os_Stat, os_Open, os_Create, log_call.
  repeat (case_match; simplify_eq/=); try done.
  all: intros; simplify_eq/=; by rewrite <- !app_assoc.
Qed.

(** X6.  When the plugin loop of [run] finishes without error, every
    listed node was resolved and its data directory holds the plugin
    with mode 0777. *)
Theorem copy_plugins_installs_on_every_node
        (env : Faults) (nw : Network) (binaryPath plugin : string)
        (names : list string) (w w' : World) (name : string) :
  copy_plugins env nw binaryPath plugin w names = (w', None) ->
  name ∈ names ->
  exists node d,
    nw_GetNode nw name = inr node /\
    files w' !! (GetDataDir node +:+ "/plugins/" +:+ plugin) = Some d /\
    f_mode d = perm_0777.
Proof.
  revert w. induction names as [|x rest IH]; intros w Hrun Hin.
  { by apply elem_of_nil in Hin. }
  simpl in Hrun.
  destruct (nw_GetNode nw x) as [err|node] eqn:Hnode; [done|].
  destruct (copy env w _ _) as [w1 [n [e|]]] eqn:Hcopy; [done|].
  apply elem_of_cons in Hin as [->|Hin]; [|by eapply IH].
  exists node. rewrite Hnode.
  destruct (CopyFacts.copy_success_mode env w
              (binaryPath +:+ "/plugins/" +:+ plugin)
              (GetDataDir node +:+ "/plugins/" +:+ plugin) n) as (d & Hd & Hm).
  { by rewrite Hcopy. }
  rewrite Hcopy in Hd. simpl in Hd.
  destruct (CopyFacts.copy_plugins_keeps_mode env nw binaryPath plugin rest
              w1 w' (GetDataDir node +:+ "/plugins/" +:+ plugin))
    as (d' & Hd' & Hm'); eauto.
Qed.

Lemma copy_plugins_installs_on_every_node_witness :
  exists node d,
    nw_GetNode (Scenario.good_net 3) "node2" = inr node /\
    files (copy_plugins no_faults (Scenario.good_net 3) Scenario.binary_dir
             Scenario.plugin Scenario.fresh_host (Scenario.node_names 3)).1
      !! (GetDataDir node +:+ "/plugins/" +:+ Scenario.plugin) = Some d /\
    f_mode d = perm_0777.
Proof.
  eapply (copy_plugins_installs_on_every_node no_faults (Scenario.good_net 3)
            Scenario.binary_dir Scenario.plugin
            (Scenario.node_names 3) Scenario.fresh_host
            (copy_plugins no_faults (Scenario.good_net 3)
               Scenario.binary_dir Scenario.plugin
               Scenario.fresh_host (Scenario.node_names 3)).1).
  - apply pair_from_snd. vm_compute. reflexivity.
  - vm_compute. apply list_elem_of_lookup. by exists 1%nat.
Defined.

Lemma copy_plugins_fails_fast_witness :
  (copy_plugins no_faults (Scenario.good_net 3)
     Scenario.binary_dir Scenario.plugin
     Scenario.fresh_host (["ghost"] ++ Scenario.node_names 3)).2
  = Some (ErrLibrary "node not found").
Proof.
  rewrite (CopyFacts.copy_plugins_fails_fast no_faults (Scenario.good_net 3)
             Scenario.binary_dir Scenario.plugin
             ["ghost"] (Scenario.node_names 3)
             Scenario.fresh_host Scenario.fresh_host
             (ErrLibrary "node not found") eq_refl).
  reflexivity.
Defined.

Lemma copy_chmod_error_wins_witness :
  (copy Scenario.chmod_denied Scenario.fresh_host Scenario.plugin_path
        Scenario.node1_plugin).2
  = (0, Some (ErrPermission "chmod" Scenario.node1_plugin)).
Proof.
  pose (env := Scenario.chmod_denied).
  pose (w1 := (os_Stat env Scenario.fresh_host Scenario.plugin_path).1).
  pose (w2 := (os_Open env w1 Scenario.plugin_path).1).
  pose (w3 := (os_Create env w2 Scenario.node1_plugin).1).
  refine (proj1 (copy_chmod_error_wins env Scenario.fresh_host w1 w2 w3
                   Scenario.plugin_path Scenario.node1_plugin
                   Scenario.plugin_path Scenario.node1_plugin
                   (mkFile Regular 493 Scenario.elf)
                   (ErrPermission "chmod" Scenario.node1_plugin) _ _ _ _ _)).
  all: reflexivity.
Defined.

Lemma copy_create_error_writes_nothing_witness :
  (copy Scenario.create_denied Scenario.fresh_host Scenario.plugin_path
        Scenario.node1_plugin).2
  = (0, Some (ErrPermission "open" Scenario.node1_plugin)).
Proof.
  pose (env := Scenario.create_denied).
  pose (w1 := (os_Stat env Scenario.fresh_host Scenario.plugin_path).1).
  pose (w2 := (os_Open env w1 Scenario.plugin_path).1).
  pose (w3 := (os_Create env w2 Scenario.node1_plugin).1).
  change Scenario.create_denied with env.
  rewrite (proj1 (copy_create_error_writes_nothing env Scenario.fresh_host
                    w1 w2 w3 Scenario.plugin_path Scenario.node1_plugin
                    Scenario.plugin_path (mkFile Regular 493 Scenario.elf)
                    (ErrPermission "open" Scenario.node1_plugin)
                    eq_refl eq_refl
                    eq_refl eq_refl)).
  reflexivity.
Defined.

(** ** [copy] on a file system with links *)

Module LinkedFacts.
Import Linked.

Lemma same_file_sym (w : Linked.World) (p q : string) :
  same_file w p q -> same_file w q p.
Proof. intros [->|(i & H1 & H2)]; [by left|right; eauto]. Qed.


(** A failed [os.Create] changes nothing. *)
Lemma os_Create_inl env w p w' e :
  os_Create env w p = (w', inl e) -> w' = w.
Proof.
  unfold os_Create. repeat (case_match; simplify_eq/=); try done.
  all: by intros; simplify_eq.
Qed.

(** A successful [os.Create]: the handle is the file the path leads
    to afterwards, a file that is now empty; the paths that lead to it
    are the destination and the paths that led to the same file
    before; no other file has changed. *)
Lemma os_Create_inr env w p w' i :
  os_Create env w p = (w', inr i) ->
  (forall q, names w' !! q = Some i <-> same_file w q p) /\
  (forall q, ~ same_file w q p -> names w' !! q = names w !! q) /\
  (forall q j, names w !! q = Some j -> names w' !! q = Some j) /\
  (forall j, j <> i -> inodes w' !! j = inodes w !! j) /\
  exists f, inodes w' !! i = Some f /\ f_data f = [] /\
            (forall g, inodes w !! i = Some g -> f_kind f = f_kind g).
Proof.
  unfold os_Create.
  destruct (create_fault env p); [done|].
  destruct (names w !! p) as [i0|] eqn:Hp.
  - assert (forall q, names w !! q = Some i0 <-> same_file w q p) as Hsame.
    { intros q. split.
      - intros Hq. right. eauto.
      - intros [->|(k & H1 & H2)]; congruence. }
    destruct (inodes w !! i0) as [f|] eqn:Hf.
    + destruct (f_kind f) eqn:Hk; [|done|].
      all: intros [= <- <-]; subst; simpl.
      all: split_and!; [done|done|done| |].
      all: try by (intros j Hj; rewrite lookup_insert_ne).
      all: eexists; rewrite lookup_insert_eq; split_and!; [done|done|].
      all: intros g Hg; simpl; congruence.
    + intros [= <- <-]; simpl.
      split_and!; [done|done|done| |].
      * intros j Hj. by rewrite lookup_insert_ne.
      * eexists. rewrite lookup_insert_eq. split_and!; [done|done|].
        intros g Hg. congruence.
  - set (i0 := fresh _). intros [= <- <-]. simpl.
    assert (forall q, names w !! q <> Some i0) as Hfresh.
    { intros q Hq.
      apply (is_fresh (dom (inodes w) ∪ map_img (names w) : gset nat)).
      apply elem_of_union_r. by eapply elem_of_map_img_2. }
    assert (inodes w !! i0 = None) as Hnew.
    { apply not_elem_of_dom. intros Hin.
      apply (is_fresh (dom (inodes w) ∪ map_img (names w) : gset nat)).
      by apply elem_of_union_l. }
    split_and!.
    + intros q. destruct (decide (q = p)) as [->|Hne].
      * rewrite lookup_insert_eq. split; [by left|done].
      * rewrite lookup_insert_ne by done. split; [by intros ?%Hfresh|].
        intros [?|(k & H1 & H2)]; congruence.
    + intros q Hq. rewrite lookup_insert_ne; [done|].
      intros <-. apply Hq. by left.
    + intros q j Hq. rewrite lookup_insert_ne; [done|]. congruence.
    + intros j Hj. by rewrite lookup_insert_ne.
    + eexists. rewrite lookup_insert_eq. split_and!; [done|done|].
      intros g Hg. congruence.
Qed.

(** Where [copy] leaves the file system: as it was, or as [os.Create]
    left it but for the file behind the destination handle. *)
Lemma copy_shape env w src dst w' r :
  copy env w src dst = (w', r) ->
  w' = w \/
  exists i w1,
    os_Create env w dst = (w1, inr i) /\
    names w' = names w1 /\
    forall j, j <> i -> inodes w' !! j = inodes w1 !! j.
Proof.
  unfold copy.
  destruct (os_Stat env w src) as [e|st]; [intros [= <- <-]; by left|].
  destruct (negb (IsRegular st)); [intros [= <- <-]; by left|].
  destruct (os_Open env w src) as [e|si]; [intros [= <- <-]; by left|].
  destruct (os_Create env w dst) as [w1 [e|i]] eqn:Hc.
  { apply os_Create_inl in Hc as ->. intros [= <- <-]. by left. }
  intros Hrest. right. exists i, w1. split; [done|].
  destruct (os_Create_inr env w dst w1 i Hc) as (Hnames & _).
  assert (names w1 !! dst = Some i) as Hdst by (apply Hnames; by left).
  revert Hrest. unfold io_Copy, os_Chmod.
  destruct (copy_fault env) as [[k e]|]; simpl; rewrite Hdst.
  all: repeat (case_match; simplify_eq/=); intros; simplify_eq/=.
  all: split; [done|]; intros j Hj.
  all: rewrite ?lookup_insert_ne by congruence.
  all: by rewrite ?lookup_alter_ne by congruence.
Qed.


(** The frame of [copy]: a path that does not lead to the
    destination's file leads to the file it led to, unchanged. *)
Lemma copy_leaves_other_files env w src dst w' r q :
  copy env w src dst = (w', r) ->
  ~ same_file w q dst -> file_at w' q = file_at w q.
Proof.
  intros [->|(i & w1 & Hc & Hn & Hi)]%copy_shape Hq; [done|].
  destruct (os_Create_inr env w dst w1 i Hc) as (Hnames & Hkeep & _ & Hrest & _).
  unfold file_at. rewrite Hn, (Hkeep q Hq).
  destruct (names w !! q) as [j|] eqn:Hj; [|done].
  assert (j <> i) as Hji.
  { intros ->. apply Hq, Hnames. by rewrite (Hkeep q Hq). }
  by rewrite Hi, Hrest.
Qed.



Section Plugins.
Variables (env : Faults) (nw : Network) (binaryPath plugin : string).
Let src := binaryPath +:+ "/plugins/" +:+ plugin.
Let dst_of (node : Node) := GetDataDir node +:+ "/plugins/" +:+ plugin.



End Plugins.

End LinkedFacts.

(** X1.  On a file system with links, [copy] changes no file but the
    one its destination leads to: whatever the outcome, a path that
    is not the destination and does not lead to the same file as the
    destination leads to the file it led to before, unchanged. *)
Theorem copy_changes_only_the_file_it_names
        (env : Faults) (w : Linked.World) (src dst q : string) :
  ~ Linked.same_file w q dst ->
  Linked.file_at (Linked.copy env w src dst).1 q = Linked.file_at w q.
Proof.
  intros Hq.
  destruct (Linked.copy env w src dst) as [w' r] eqn:Hc.
  by eapply LinkedFacts.copy_leaves_other_files.
Qed.

Lemma copy_changes_only_the_file_it_names_witness :
  Linked.file_at
    (Linked.copy no_faults Scenario.linked_host Scenario.plugin_path
                 ("/data/node2/plugins/" +:+ Scenario.plugin)).1
    Scenario.node1_plugin
  = Some (mkFile Regular 493 Scenario.elf).
Proof.
  rewrite (copy_changes_only_the_file_it_names no_faults Scenario.linked_host
             Scenario.plugin_path ("/data/node2/plugins/" +:+ Scenario.plugin)
             Scenario.node1_plugin).
  - vm_compute. reflexivity.
  - intros [H|(i & _ & H)]; vm_compute in H; discriminate H.
Defined.





(** ** The multi-subnet [run] and [main] *)

Module MultiFacts.
Import MultiSubnet.

(** A deadline context is done by its deadline. *)
Lemma done_at_deadline (ctx : Context) (d : Z) :
  exists t e, done_at (WithDeadline ctx d) = Some (t, e) /\ t <= d.
Proof.
  simpl. destruct (done_at ctx) as [[t e]|]; [|eauto with lia].
  destruct (t <=? d) eqn:E; [apply Z.leb_le in E|]; eauto with lia.
Qed.


End MultiFacts.

(** X9.  [await] never blocks for good: with a non-negative timeout,
    and a cluster that takes no negative time, it returns no earlier
    than it was entered and no later than the timeout, whatever the
    context it was given; it logs that the nodes are healthy exactly
    when it returns [nil]. *)
Theorem await_returns_within_timeout
        (env : MultiSubnet.Env) (k : nat) (ctx : MultiSubnet.Context)
        (timeout now : Z) :
  0 <= timeout ->
  (forall d r, MultiSubnet.health env k = Some (d, r) -> 0 <= d) ->
  exists t r lg,
    MultiSubnet.await env k ctx timeout now = Some (t, r, lg) /\
    now <= t <= now + timeout /\
    lg = log_waiting :: match r with None => [log_healthy] | Some _ => [] end.
Proof.
  intros Ht Hd. unfold MultiSubnet.await, MultiSubnet.Healthy.
  destruct (MultiFacts.done_at_deadline ctx (now + timeout)) as (t & e & -> & Hle).
  destruct (MultiSubnet.health env k) as [[d r]|] eqn:Hh.
  - specialize (Hd d r eq_refl).
    destruct (now + d <=? t) eqn:E.
    + apply Z.leb_le in E. destruct r; eexists _, _, _; split_and!; eauto; lia.
    + eexists _, _, _; split_and!; eauto; lia.
  - eexists _, _, _; split_and!; eauto; lia.
Qed.

Lemma await_returns_within_timeout_witness :
  exists t r lg,
    MultiSubnet.await (Scenario.multi_env 1 Scenario.good_lib Scenario.soon None)
                      1 MultiSubnet.Background MultiSubnet.healthyTimeout 0
    = Some (t, r, lg) /\
    0 <= t <= 0 + MultiSubnet.healthyTimeout /\
    lg = log_waiting :: match r with None => [log_healthy] | Some _ => [] end.
Proof.
  apply (await_returns_within_timeout
           (Scenario.multi_env 1 Scenario.good_lib Scenario.soon None)
           1%nat MultiSubnet.Background MultiSubnet.healthyTimeout 0).
  - vm_compute. discriminate.
  - intros d r H. vm_compute in H. injection H as <- _. vm_compute. discriminate.
Defined.

(** X10.  The multi-subnet [run] calls [Stop] once if it bootstrapped a
    network and has returned, by [nil], an error or a panic alike, and
    not at all otherwise: never without a network, and never while it
    is still waiting for a signal. *)
Theorem run_stops_iff_bootstrapped_and_returned
        (env : MultiSubnet.Env) (ctx : MultiSubnet.Context) (t0 : Z) (w : World) :
  MultiSubnet.r_stops (MultiSubnet.run env ctx t0 w)
  = match MultiSubnet.bootstrapped env,
          MultiSubnet.r_final (MultiSubnet.run env ctx t0 w) with
    | Some _, MultiSubnet.Returned _ => 1%nat
    | _, _ => 0%nat
    end.
Proof.
  destruct (MultiSubnet.bootstrapped env) as [nw|] eqn:Hb.
  - rewrite (RunFacts.run_bootstrapped env ctx t0 w nw Hb).
    rewrite RunFacts.deferred_Stop_final. unfold MultiSubnet.deferred_Stop.
    destruct (MultiSubnet.r_final _) eqn:E; simpl;
      by rewrite RunFacts.run_body_stops.
  - revert Hb. unfold MultiSubnet.bootstrapped, MultiSubnet.run.
    destruct (NewDefaultConfigNNodes _ _ _) as [e|cfg]; [done|].
    by destruct (NewNetwork _ _ _) as [e|nw].
Qed.



(** ** The partition loop: when it panics, and what every spec carries *)

Module SpecFacts.
Import MultiSubnet.

Section Specs.
Variables (vm : string) (gen : list Byte.byte) (nodes : list string).

(** Too few names for the iterations that are left: the loop ends in
    a slice out of range. *)
Lemma specs_loop_short (size : Z) (n : nat) : forall (i : Z) acc,
  0 < size -> 0 <= i ->
  (i + Z.of_nat n) * size <= GoInt.max_int ->
  i * size <= Z.of_nat (length nodes) < (i + Z.of_nat n) * size ->
  specs_loop size vm gen nodes n i acc = None.
Proof.
  induction n as [|n IH]; intros i acc Hs Hi Hmax Hlen; [lia|].
  simpl.
  assert (GoInt.add i 1 = i + 1) as ->.
  { apply GoIntFacts.add_small. unfold GoInt.min_int, GoInt.max_int in *. nia. }
  assert (GoInt.mul (i + 1) size = (i + 1) * size) as Hhi.
  { apply GoIntFacts.mul_small. unfold GoInt.min_int, GoInt.max_int in *. nia. }
  destruct (go_slice nodes _ _) as [part|] eqn:Hslice; [|done].
  apply IH; try lia.
  revert Hslice. unfold go_slice. rewrite Hhi.
  destruct (_ && _) eqn:E; [|done]. intros _.
  apply andb_prop in E as [_ E]. apply Z.leb_le in E. lia.
Qed.

(** What the loop appends: one spec per iteration, each with the VM
    name, the genesis and the chain configuration of the run. *)
Lemma specs_loop_uniform (size : Z) (n : nat) : forall (i : Z) acc specs,
  specs_loop size vm gen nodes n i acc = Some specs ->
  exists new,
    specs = acc ++ new /\ length new = n /\
    Forall (fun sp => VMName sp = vm /\ Genesis sp = gen /\
                      ChainConfig sp = chainConfig) new.
Proof.
  induction n as [|n IH]; intros i acc specs; simpl.
  - intros [= <-]. exists []. by rewrite app_nil_r.
  - destruct (go_slice nodes _ _) as [part|]; [|done].
    intros (new & -> & Hlen & Hall)%IH.
    eexists (_ :: new). rewrite <- app_assoc. split_and!; [done|simpl; lia|].
    by constructor.
Qed.

End Specs.
End SpecFacts.

(** X12.  The loop over the subnets, once [make] has returned, on a
    slice of node names whose capacity is its length: as long as three
    times the number of subnets does not overflow, the loop panics,
    on a slice out of range, exactly when it asks for more nodes than
    there are names. *)
Theorem partition_loop_panics_iff
        (vm : string) (gen : list Byte.byte) (nodes : list string) (amount : Z) :
  GoInt.slice_fits 16 nodes ->
  0 <= amount ->
  MultiSubnet.subnetSize * amount <= GoInt.max_int ->
  MultiSubnet.specs_loop MultiSubnet.subnetSize vm gen nodes (Z.to_nat amount) 0 []
  = None
  <-> Z.of_nat (length nodes) < MultiSubnet.subnetSize * amount.
Proof.
  intros Hfit H0 Hmax. unfold MultiSubnet.subnetSize in *. split.
  - intros Hnone.
    destruct (Z.ltb_spec (Z.of_nat (length nodes)) (3 * amount)) as [|Hle]; [done|].
    rewrite (PartitionFacts.specs_loop_slots 3 vm gen nodes ltac:(lia) Hfit)
      in Hnone; [done|lia| |].
    + unfold GoInt.max_int in *. lia.
    + lia.
  - intros Hshort.
    apply SpecFacts.specs_loop_short; rewrite ?Z2Nat.id; lia.
Qed.

Lemma partition_loop_panics_iff_witness :
  MultiSubnet.specs_loop MultiSubnet.subnetSize "subnetevm" []
                         (Scenario.node_names 5) (Z.to_nat 2) 0 [] = None.
Proof.
  apply (partition_loop_panics_iff "subnetevm" [] (Scenario.node_names 5) 2).
  - unfold GoInt.slice_fits. vm_compute. discriminate.
  - lia.
  - vm_compute. discriminate.
  - vm_compute. reflexivity.
Defined.

(** X13.  When the partition loop completes it has built as many
    specs as subnets were asked for, and every one of them carries the
    VM name and the genesis given on the command line and the fixed
    chain configuration. *)
Theorem build_specs_uniform
        (vm : string) (gen : list Byte.byte) (nodes : list string)
        (amount : Z) (specs : list BlockchainSpec) :
  MultiSubnet.build_specs MultiSubnet.subnetSize vm gen nodes amount = Some specs ->
  Z.of_nat (length specs) = amount /\
  forall sp, sp ∈ specs ->
    VMName sp = vm /\ Genesis sp = gen /\ ChainConfig sp = chainConfig.
Proof.
  unfold MultiSubnet.build_specs.
  destruct (Z.ltb_spec amount 0) as [|H0]; [done|].
  intros (new & -> & Hlen & Hall)%SpecFacts.specs_loop_uniform. simpl. split.
  - rewrite Hlen. lia.
  - intros sp Hsp. by eapply Forall_forall in Hall.
Qed.

Lemma build_specs_uniform_witness :
  exists specs,
    MultiSubnet.build_specs MultiSubnet.subnetSize "subnetevm" Scenario.elf
                            (Scenario.node_names 6) 2 = Some specs /\
    Z.of_nat (length specs) = 2 /\
    forall sp, sp ∈ specs ->
      VMName sp = "subnetevm" /\ Genesis sp = Scenario.elf /\
      ChainConfig sp = chainConfig.
Proof.
  eexists. split; [exact eq_refl|].
  apply (build_specs_uniform "subnetevm" Scenario.elf (Scenario.node_names 6) 2).
  reflexivity.
Defined.

(** ** The endpoint loop: its log, and the historical choice of chain *)

Module UrlLogFacts.
Section Loop.
Variable chain_index : Z -> Z.
Variable nw : Network.
Variable chains : list string.

(** The loop logs each URL as it stores it. *)
Lemma publish_urls_log (names : list string) :
  forall (i : Z) (acc : list string * list LogEntry) urls lg,
    0 <= i ->
    (Z.to_nat i + length names <= length acc.1)%nat ->
    publish_urls chain_index nw chains names i acc = Ok (urls, lg) ->
    lg = acc.2 ++
         zip_with (fun name url =>
                     mkLog LInfo "subnet rpc url"
                           [FString "node" name; FString "url" url])
                  names (drop (Z.to_nat i) urls).
Proof.
  induction names as [|name rest IH]; intros i acc urls lg Hi Hlen Hrun.
  - simpl in Hrun. simplify_eq. by rewrite app_nil_r.
  - pose proof Hrun as Hrun'. simpl in Hrun'.
    destruct (nw_GetNode nw name) as [e|node] eqn:Hnode; [done|].
    destruct (go_index chains (chain_index i)) as [chain|] eqn:Hchain; [|done].
    simpl in Hlen.
    assert (Z.to_nat (i + 1) + length rest
            <= length (<[Z.to_nat i := rpc_url (GetAPIPort node) chain]> acc.1))%nat
      as Hlen' by (rewrite length_insert; lia).
    pose proof Hrun' as Hs.
    apply UrlFacts.publish_urls_sound in Hs as (Hl & Hkeep & _);
      [|lia|exact Hlen'].
    simpl in Hl, Hkeep. rewrite length_insert in Hl.
    apply IH in Hrun'; [|lia|done].
    simpl in Hrun'. rewrite <- app_assoc in Hrun'. rewrite Hrun'. f_equal.
    assert (urls !! Z.to_nat i = Some (rpc_url (GetAPIPort node) chain)) as Hu.
    { rewrite Hkeep by lia. apply list_lookup_insert_eq. lia. }
    rewrite (drop_S _ _ _ Hu). simpl.
    by replace (Z.to_nat (i + 1)) with (S (Z.to_nat i)) by lia.
Qed.

End Loop.
End UrlLogFacts.

(** X14.  In both variants a completed endpoint loop has logged one
    line per node, in the order of the node names, each naming the
    node and the very URL stored for it. *)
Theorem publish_urls_logs_what_it_stores
        (chain_index : Z -> Z) (nw : Network) (chains names urls : list string)
        (lg : list LogEntry) :
  publish_urls chain_index nw chains names 0 (replicate (length names) "", [])
  = Ok (urls, lg) ->
  length urls = length names /\
  lg = zip_with (fun name url =>
                   mkLog LInfo "subnet rpc url"
                         [FString "node" name; FString "url" url])
                names urls.
Proof.
  intros Hrun. split.
  - apply UrlFacts.publish_urls_sound in Hrun as (Hl & _ & _); simpl.
    2: lia.
    2: { rewrite length_replicate. simpl. lia. }
    simpl in Hl. by rewrite length_replicate in Hl.
  - apply UrlLogFacts.publish_urls_log in Hrun; simpl in *; [done|lia|].
    rewrite length_replicate. lia.
Qed.

Lemma publish_urls_logs_what_it_stores_witness :
  exists urls lg,
    publish_urls (fun _ => 0) (Scenario.good_net 5) ["chain0"]
                 (Scenario.node_names 5) 0 (replicate 5 "", []) = Ok (urls, lg) /\
    length urls = 5%nat /\
    lg = zip_with (fun name url =>
                     mkLog LInfo "subnet rpc url"
                           [FString "node" name; FString "url" url])
                  (Scenario.node_names 5) urls.
Proof.
  eexists _, _. split; [exact eq_refl|].
  apply (publish_urls_logs_what_it_stores (fun _ => 0) (Scenario.good_net 5)
           ["chain0"] (Scenario.node_names 5)).
  reflexivity.
Defined.


(** X16.  With no chain to index and at least one node name, the
    endpoint loop of either variant never completes: it returns the
    error of [GetNode] if the first name does not resolve, and panics
    on the index into [chains] if it does. *)
Theorem publish_urls_without_chain_never_completes
        (chain_index : Z -> Z) (nw : Network) (name : string)
        (rest : list string) (i : Z) (acc : list string * list LogEntry) :
  publish_urls chain_index nw [] (name :: rest) i acc
  = match nw_GetNode nw name with
    | inl err => Err err
    | inr _ => Panic
    end.
Proof.
  simpl. destruct (nw_GetNode nw name) as [err|node]; [done|].
  unfold go_index. by destruct (0 <=? _).
Qed.


(** ** The port shift of the historical [run] *)

Module ShiftFacts.
Import Historical.

(** One flag shifted: the flag was an [int], it has grown by the
    shift, and no other flag has changed. *)
Lemma shift_flag_Some (key : string) (shift : Z)
      (flags flags' : gmap string FlagValue) :
  shift_flag key shift flags = Some flags' ->
  exists port,
    flags !! key = Some (VInt port) /\
    flags' = <[key := VInt (GoInt.add port shift)]> flags.
Proof.
  unfold shift_flag. destruct (flags !! key) as [[port|]|]; try done.
  intros [= <-]; eauto.
Qed.

Lemma shift_flag_None (key : string) (shift : Z) (flags : gmap string FlagValue) :
  shift_flag key shift flags = None <->
  ~ exists port, flags !! key = Some (VInt port).
Proof.
  unfold shift_flag. split.
  - destruct (flags !! key) as [[]|]; try done; by intros _ [port [=]].
  - intros Hno. destruct (flags !! key) as [[]|]; try done.
    destruct Hno. eauto.
Qed.

(** The two assignments of one round of the loop. *)
Lemma shift_node (shift : Z) (flags : gmap string FlagValue) :
  match shift_flag "http-port" shift flags with
  | None => ~ exists http, flags !! "http-port" = Some (VInt http)
  | Some f1 =>
      match shift_flag "staking-port" shift f1 with
      | None => ~ exists staking, flags !! "staking-port" = Some (VInt staking)
      | Some f2 =>
          exists http staking,
            flags !! "http-port" = Some (VInt http) /\
            flags !! "staking-port" = Some (VInt staking) /\
            f2 = <["staking-port" := VInt (GoInt.add staking shift)]>
                   (<["http-port" := VInt (GoInt.add http shift)]> flags)
      end
  end.
Proof.
  destruct (shift_flag "http-port" _ _) as [f1|] eqn:H1.
  - apply shift_flag_Some in H1 as (http & Hh & ->).
    destruct (shift_flag "staking-port" _ _) as [f2|] eqn:H2.
    + apply shift_flag_Some in H2 as (staking & Hs & ->).
      rewrite lookup_insert_ne in Hs by done. eauto 10.
    + apply shift_flag_None in H2. intros (st & Hst). apply H2.
      exists st. by rewrite lookup_insert_ne.
  - by apply shift_flag_None in H1.
Qed.

End ShiftFacts.

(** X17.  When the port shift of [run] goes through, the configuration
    has as many nodes as before, and in each of them the HTTP port and
    the staking port, both integers, have grown by the shift (in
    [int] arithmetic) while every other flag is as it was. *)
Theorem shift_ports_effect
        (shift : Z) (ncs ncs' : list NodeConfig) :
  Historical.shift_ports shift ncs = Some ncs' ->
  length ncs' = length ncs /\
  forall i nc, ncs !! i = Some nc ->
    exists nc' http staking,
      ncs' !! i = Some nc' /\
      nc_Flags nc !! "http-port" = Some (VInt http) /\
      nc_Flags nc !! "staking-port" = Some (VInt staking) /\
      nc_Flags nc' !! "http-port" = Some (VInt (GoInt.add http shift)) /\
      nc_Flags nc' !! "staking-port" = Some (VInt (GoInt.add staking shift)) /\
      forall key, key <> "http-port" -> key <> "staking-port" ->
                  nc_Flags nc' !! key = nc_Flags nc !! key.
Proof.
  revert ncs'. induction ncs as [|nc0 rest IH]; intros ncs' Hrun; simpl in Hrun.
  - simplify_eq. split; [done|]. by intros i nc.
  - pose proof (ShiftFacts.shift_node shift (nc_Flags nc0)) as Hnode.
    destruct (Historical.shift_flag "http-port" _ _) as [f1|]; [|done].
    destruct (Historical.shift_flag "staking-port" _ _) as [f2|]; [|done].
    destruct (Historical.shift_ports shift rest) as [rest'|]; [|done].
    simplify_eq. destruct (IH rest' eq_refl) as [Hlen Hrest].
    split; [simpl; by rewrite Hlen|].
    intros [|i] nc Hi; simpl in Hi.
    + simplify_eq. destruct Hnode as (http & staking & Hh & Hs & ->).
      eexists _, http, staking. split_and!; [done|done|done| | |]; simpl.
      * rewrite lookup_insert_ne by done. by rewrite lookup_insert_eq.
      * by rewrite lookup_insert_eq.
      * intros key H1 H2. by rewrite !lookup_insert_ne.
    + by apply Hrest.
Qed.

Lemma shift_ports_effect_witness :
  exists ncs' nc',
    Historical.shift_ports 20 (NodeConfigs (Scenario.config_of 5)) = Some ncs' /\
    ncs' !! 2%nat = Some nc' /\
    nc_Flags nc' !! "http-port" = Some (VInt 9674) /\
    nc_Flags nc' !! "staking-port" = Some (VInt 9675).
Proof.
  destruct (Historical.shift_ports 20 (NodeConfigs (Scenario.config_of 5)))
    as [ncs'|] eqn:Hrun; [|vm_compute in Hrun; discriminate Hrun].
  destruct (shift_ports_effect 20 (NodeConfigs (Scenario.config_of 5)) ncs' Hrun)
    as [_ Hall].
  destruct (Hall 2%nat (Scenario.node_config 2) eq_refl)
    as (nc' & http & staking & Hnc & Hh & Hs & Hh' & Hs' & _).
  vm_compute in Hh. vm_compute in Hs. simplify_eq.
  exists ncs', nc'. by split_and!.
Defined.

(** X18.  The port shift panics exactly when some node's HTTP port or
    staking port is missing or is not an integer. *)
Theorem shift_ports_panics_iff (shift : Z) (ncs : list NodeConfig) :
  Historical.shift_ports shift ncs = None <->
  exists nc, nc ∈ ncs /\
    ~ ((exists http, nc_Flags nc !! "http-port" = Some (VInt http)) /\
       (exists staking, nc_Flags nc !! "staking-port" = Some (VInt staking))).
Proof.
  induction ncs as [|nc0 rest IH]; simpl.
  - split; [done|]. intros (nc & Hin & _). by apply elem_of_nil in Hin.
  - pose proof (ShiftFacts.shift_node shift (nc_Flags nc0)) as Hnode.
    destruct (Historical.shift_flag "http-port" _ _) as [f1|].
    2: { split; [|done]. intros _. exists nc0. split; [left|]. tauto. }
    destruct (Historical.shift_flag "staking-port" _ _) as [f2|].
    2: { split; [|done]. intros _. exists nc0. split; [left|]. tauto. }
    destruct Hnode as (http & staking & Hh & Hs & _).
    destruct (Historical.shift_ports shift rest) as [rest'|].
    + split; [done|]. intros (nc & Hin & Hbad).
      apply elem_of_cons in Hin as [->|Hin].
      * destruct Hbad. eauto.
      * assert (Some rest' = None) as Hn by (apply IH; eauto).
        done.
    + split; [|done]. intros _.
      destruct (proj1 IH eq_refl) as (nc & Hin & Hbad).
      exists nc. split; [by right|done].
Qed.

(** ** The network handle and the signal handler along a run *)

Module NetFacts.
Import Historical.
Import StopFacts.

Ltac net_close :=
  state_simpl; simplify_eq; constructor; state_simpl; intros;
  first [ done
        | use_premises; first [done | congruence]
        | split_vars; try (intuition (try first [done | congruence])) ].

Lemma net_inv_init w : NetInv (init w).
Proof. unfold init. net_close. Qed.

Lemma net_inv_main_step env s s' :
  NetInv s -> main_step env s = Some s' -> NetInv s'.
Proof.
  intros [H1 H2 H3] Hstep. open_state s.
  unfold main_step in Hstep. state_simpl.
  destruct pc0.
  - unfold main_prologue in Hstep. state_simpl.
    destruct (logger_fault env); [net_close|].
    destruct (load_history env world0) as [w [| |]]; net_close.
  - unfold run_setup in Hstep. state_simpl.
    destruct (NewDefaultConfig _ _); [net_close|].
    destruct (shift_ports _ _); [|net_close].
    destruct (NewNetwork _ _ _); net_close.
  - destruct net0 as [nw|]; [|done].
    unfold run_record in Hstep. state_simpl.
    destruct (nw_GetNetworkID nw); [net_close|].
    destruct (json_MarshalIndent _); [net_close|].
    destruct (os_WriteFile _ _ _ _ _) as [w [e|]]; net_close.
  - destruct net0 as [nw|]; net_close.
  - destruct net0 as [nw|]; [|done].
    destruct (nw_Healthy _ _ _); [|destruct k as [|[|k]]]; net_close.
  - destruct net0 as [nw|]; [|done].
    destruct (nw_GetNodeNames nw); net_close.
  - destruct net0 as [nw|]; [|done].
    destruct (copy_plugins _ _ _ _ _ _) as [w [e|]]; net_close.
  - destruct net0 as [nw|]; [|done].
    destruct (nw_CreateBlockchains _ _); net_close.
  - destruct net0 as [nw|]; [|done].
    destruct (publish_urls _ _ _ _ _ _) as [[urls lg]| |]; net_close.
  - destruct net0 as [nw|]; [|done].
    destruct closed0; net_close.
  - destruct net0 as [nw|]; [|done].
    destruct (nw_Stop _ _); net_close.
  - destruct r; net_close.
  - done.
  - done.
Qed.

Lemma net_inv_listener_step s s' :
  NetInv s -> shutdownOnSignal_step s = Some s' -> NetInv s'.
Proof.
  intros [H1 H2 H3] Hstep. open_state s.
  unfold shutdownOnSignal_step in Hstep. state_simpl.
  destruct lpc0.
  - by destruct pc0.
  - destruct sigbuf0; destruct pc0; net_close.
  - destruct net0 as [nw|]; [|by destruct pc0].
    destruct (nw_Stop nw (S stops0)) eqn:E; destruct pc0; rewrite ?E in Hstep;
      net_close.
  - destruct pc0; net_close.
  - by destruct pc0.
Qed.

Lemma net_inv_signal_step sig s s' :
  NetInv s -> signal_step sig s = Some s' -> NetInv s'.
Proof.
  intros [H1 H2 H3] Hstep. open_state s.
  unfold signal_step in Hstep. state_simpl.
  destruct pc0; try done; destruct notified0, sigbuf0; net_close.
Qed.

Lemma net_inv_exec env evs : forall s s',
  NetInv s -> exec env evs s = Some s' -> NetInv s'.
Proof.
  induction evs as [|ev evs IH]; intros s s' Hs Hrun; simpl in Hrun.
  - by simplify_eq.
  - destruct (step env ev s) as [s1|] eqn:Hstep; [|done].
    apply (IH s1); [|done]. destruct ev; simpl in Hstep;
      eauto using net_inv_main_step, net_inv_listener_step, net_inv_signal_step.
Qed.

Lemma reachable_net_inv env w evs s :
  exec env evs (init w) = Some s -> NetInv s.
Proof. apply net_inv_exec, net_inv_init. Qed.

(** Once killed by a signal nothing runs any more. *)
Lemma killed_is_final env s sig ev :
  pc s = PKilled sig -> step env ev s = None.
Proof.
  intros Hpc. destruct ev; simpl.
  - unfold main_step. by rewrite Hpc.
  - unfold shutdownOnSignal_step, alive. by rewrite Hpc.
  - unfold signal_step, alive. by rewrite Hpc.
Qed.

End NetFacts.

(** X19.  The historical runner never calls [Stop] without a network:
    as long as no network has been started, and for good if the
    bootstrap failed, the count of [Stop] calls is zero and the signal
    listener does not exist. *)
Theorem no_network_no_stop
        (env : Historical.Env) (w : World) (evs : list Historical.Event)
        (s : Historical.State) :
  Historical.exec env evs (Historical.init w) = Some s ->
  Historical.net s = None ->
  Historical.stops s = 0%nat /\ Historical.lpc s = Historical.LNone.
Proof.
  intros Hrun Hnet.
  pose proof (StopFacts.reachable_inv _ _ _ _ Hrun) as [H1 _ _ _ _ _].
  pose proof (NetFacts.reachable_net_inv _ _ _ _ Hrun) as [_ H2 _].
  assert (Historical.lpc s = Historical.LNone) as Hl.
  { destruct (Historical.lpc s); try done; by destruct H2. }
  split; [|done]. rewrite H1.
  unfold Historical.deferred_ran, Historical.listener_ran. rewrite Hnet, Hl.
  by destruct (Historical.run_result s).
Qed.

(** X20.  A signal that arrives before [signal.Notify] is in force, in
    particular between the bootstrap and the registration of the
    handler, ends the process by its default action: no [Stop] has
    been or will be called, although after the bootstrap a network is
    running. *)
Theorem early_signal_orphans_the_network
        (env : Historical.Env) (w : World) (evs : list Historical.Event)
        (s : Historical.State) (sig : Signal) :
  Historical.exec env evs (Historical.init w) = Some s ->
  Historical.before_listener s ->
  exists s',
    Historical.step env (Historical.EvSignal sig) s = Some s' /\
    Historical.pc s' = Historical.PKilled sig /\
    Historical.stops s' = 0%nat /\
    Historical.net s' = Historical.net s /\
    (Historical.pc s = Historical.PRecord -> Historical.net s' <> None) /\
    forall ev, Historical.step env ev s' = None.
Proof.
  intros Hrun Hbefore.
  pose proof (StopFacts.reachable_inv _ _ _ _ Hrun) as [H1 _ _ H4 H5 _].
  pose proof (NetFacts.reachable_net_inv _ _ _ _ Hrun) as [N1 _ N3].
  specialize (N3 Hbefore). specialize (H5 Hbefore).
  assert (Historical.run_result s = None) as Hres.
  { destruct (Historical.run_result s); [|done].
    assert (Historical.in_main s) as Hm by (by apply H4).
    unfold Historical.in_main, Historical.before_listener in *.
    by destruct (Historical.pc s). }
  assert (Historical.alive s = true) as Halive.
  { unfold Historical.alive, Historical.before_listener in *.
    by destruct (Historical.pc s). }
  exists (Historical.set_pc (Historical.PKilled sig) s).
  split_and!.
  - simpl. unfold Historical.signal_step. by rewrite Halive, N3.
  - done.
  - simpl. rewrite H1. unfold Historical.deferred_ran, Historical.listener_ran.
    by rewrite Hres, H5.
  - done.
  - intros Hpc. simpl. apply N1. unfold Historical.in_run. by rewrite Hpc.
  - intros ev. by apply (NetFacts.killed_is_final env _ sig).
Qed.

Lemma early_signal_orphans_the_network_witness :
  exists s s',
    Historical.exec (Scenario.hist_env Scenario.good_lib)
                    [Historical.EvMain; Historical.EvMain]
                    (Historical.init Scenario.fresh_host) = Some s /\
    Historical.step (Scenario.hist_env Scenario.good_lib)
                    (Historical.EvSignal SIGINT) s = Some s' /\
    Historical.pc s' = Historical.PKilled SIGINT /\
    Historical.stops s' = 0%nat /\
    Historical.net s' <> None.
Proof.
  pose (env := Scenario.hist_env Scenario.good_lib).
  assert (Historical.pc
            <$> Historical.exec env [Historical.EvMain; Historical.EvMain]
                                (Historical.init Scenario.fresh_host)
          = Some Historical.PRecord) as H.
  { vm_compute. reflexivity. }
  apply fmap_Some in H as (s & Hrun & Hpc).
  destruct (early_signal_orphans_the_network env Scenario.fresh_host
              [Historical.EvMain; Historical.EvMain] s SIGINT Hrun)
    as (s' & Hstep & Hk & Hst & _ & Hnet & _).
  { unfold Historical.before_listener. by rewrite <- Hpc. }
  exists s, s'. split_and!; try done. by apply Hnet.
Defined.

(** X21.  [Stop] is called at most twice in any run of the historical
    runner, and twice only when both the signal listener and the
    deferred closure of a returned [run] have called it; without a
    signal taken up by the listener it is called at most once. *)
Theorem stops_at_most_once_each
        (env : Historical.Env) (w : World) (evs : list Historical.Event)
        (s : Historical.State) :
  Historical.exec env evs (Historical.init w) = Some s ->
  (Historical.stops s <= 2)%nat /\
  (Historical.stops s = 2%nat ->
   Historical.run_result s <> None /\
   (Historical.lpc s = Historical.LStopped \/
    Historical.lpc s = Historical.LDone)) /\
  (Historical.lpc s = Historical.LNone \/ Historical.lpc s = Historical.LRecv ->
   (Historical.stops s <= 1)%nat).
Proof.
  intros Hrun.
  pose proof (StopFacts.reachable_inv _ _ _ _ Hrun) as [H1 _ _ _ _ _].
  rewrite H1. unfold Historical.deferred_ran, Historical.listener_ran.
  destruct (Historical.run_result s), (Historical.net s), (Historical.lpc s);
    simpl; split_and!; try lia; try (intros [|]; done || lia); intros; try lia;
    try (split; [done|auto]).
Qed.

Lemma stops_at_most_once_each_witness :
  exists s,
    Historical.exec (Scenario.hist_env Scenario.sick_lib)
                    Scenario.signal_during_wait
                    (Historical.init Scenario.fresh_host) = Some s /\
    (Historical.stops s <= 2)%nat.
Proof.
  assert (Historical.pc
            <$> Historical.exec (Scenario.hist_env Scenario.sick_lib)
                                Scenario.signal_during_wait
                                (Historical.init Scenario.fresh_host)
          = Some (Historical.PExit 1)) as H.
  { vm_compute. reflexivity. }
  apply fmap_Some in H as (s & Hrun & _).
  exists s. split; [done|].
  exact (proj1 (stops_at_most_once_each _ _ _ s Hrun)).
Defined.

(** X22.  When [run] fails after the bootstrap and the listener has
    taken up no signal, the network has been stopped exactly once, by
    the deferred closure. *)
Theorem failure_stops_exactly_once
        (env : Historical.Env) (w : World) (evs : list Historical.Event)
        (s : Historical.State) (e : error) :
  Historical.exec env evs (Historical.init w) = Some s ->
  Historical.run_result s = Some (Err e) ->
  Historical.net s <> None ->
  Historical.lpc s = Historical.LNone \/ Historical.lpc s = Historical.LRecv ->
  Historical.stops s = 1%nat.
Proof.
  intros Hrun Hres Hnet Hl.
  pose proof (StopFacts.reachable_inv _ _ _ _ Hrun) as [H1 _ _ _ _ _].
  rewrite H1. unfold Historical.deferred_ran, Historical.listener_ran.
  rewrite Hres. destruct (Historical.net s); [|done].
  by destruct Hl as [-> | ->].
Qed.

Lemma failure_stops_exactly_once_witness :
  exists s,
    Historical.exec (Scenario.hist_env Scenario.sick_lib)
                    Scenario.health_failure
                    (Historical.init Scenario.fresh_host) = Some s /\
    Historical.pc s = Historical.PExit 1 /\
    Historical.stops s = 1%nat.
Proof.
  assert ((fun s => (Historical.pc s, Historical.run_result s,
                     match Historical.net s with Some _ => true | None => false end,
                     Historical.lpc s))
            <$> Historical.exec (Scenario.hist_env Scenario.sick_lib)
                                Scenario.health_failure
                                (Historical.init Scenario.fresh_host)
          = Some (Historical.PExit 1, Some (Err (ErrLibrary "not healthy")),
                  true, Historical.LRecv)) as H.
  { vm_compute. reflexivity. }
  apply fmap_Some in H as (s & Hrun & Hs).
  injection Hs as Hpc Hres Hnet Hl.
  exists s. split_and!; [done|done|].
  apply (failure_stops_exactly_once _ _ _ s (ErrLibrary "not healthy") Hrun).
  - done.
  - by destruct (Historical.net s).
  - by right.
Defined.

(** X23.  After [run] the exit status of the historical runner tells
    how it ended: 0 after [nil], 1 after an error, which has then been
    logged as fatal, and 2 after a panic. *)
Theorem exit_status_tells_how_run_ended
        (env : Historical.Env) (w : World) (evs : list Historical.Event)
        (s : Historical.State) (code : Z) (r : Outcome unit) :
  Historical.exec env evs (Historical.init w) = Some s ->
  Historical.pc s = Historical.PExit code ->
  Historical.run_result s = Some r ->
  match r with
  | Ok _ => code = 0
  | Err e => code = 1 /\ log_fatal e ∈ Historical.logs s
  | Panic => code = 2
  end.
Proof.
  intros Hrun Hpc Hres.
  pose proof (MainFacts.reachable_data_inv _ _ _ _ Hrun) as [He _].
  unfold Historical.exit_matches in He. rewrite Hpc, Hres in He.
  destruct r as [[]|e|]; [done| |done].
  destruct He as [-> Hlast]. split; [done|].
  destruct (Historical.logs s) as [|x l] using rev_ind; [done|].
  rewrite last_snoc in Hlast. injection Hlast as ->.
  apply elem_of_app. right. by left.
Qed.

Lemma exit_status_tells_how_run_ended_witness :
  exists s,
    Historical.exec (Scenario.hist_env Scenario.sick_lib)
                    Scenario.health_failure
                    (Historical.init Scenario.fresh_host) = Some s /\
    log_fatal (ErrLibrary "not healthy") ∈ Historical.logs s.
Proof.
  assert ((fun s => (Historical.pc s, Historical.run_result s))
            <$> Historical.exec (Scenario.hist_env Scenario.sick_lib)
                                Scenario.health_failure
                                (Historical.init Scenario.fresh_host)
          = Some (Historical.PExit 1, Some (Err (ErrLibrary "not healthy")))) as H.
  { vm_compute. reflexivity. }
  apply fmap_Some in H as (s & Hrun & Hs).
  injection Hs as Hpc Hres.
  exists s. split; [done|].
  exact (proj2 (exit_status_tells_how_run_ended _ _ _ s 1 _ Hrun
                  (eq_sym Hpc) (eq_sym Hres))).
Defined.

(** ** From one run to the next *)

Module RoundTripFacts.
Import Historical.

(** What a successful [os.WriteFile] leaves at its path. *)
Lemma os_WriteFile_written env w p data perm w' :
  os_WriteFile env w p data perm = (w', None) ->
  exists f, files w' !! p = Some f /\ f_data f = data /\ f_kind f <> Directory.
Proof.
  unfold os_WriteFile, log_call. simpl.
  destruct (write_fault env p); [done|].
  destruct (files w !! p) as [f|] eqn:Hp.
  - destruct (f_kind f) eqn:Hk; [|done|].
    all: intros [= <-]; eexists; simpl; rewrite lookup_insert_eq.
    all: split_and!; [done|done|]; simpl; by rewrite ?Hk.
  - intros [= <-]. eexists. simpl. rewrite lookup_insert_eq. by split_and!.
Qed.

(** A history file that can be read and decoded is loaded. *)
Lemma load_history_ok env w f cfgs :
  stat_fault (faults env) (configFilePath env) = None ->
  read_fault (faults env) (configFilePath env) = None ->
  files w !! configFilePath env = Some f ->
  f_kind f <> Directory ->
  json_Unmarshal env (f_data f) = inr cfgs ->
  (load_history env w).2 = LoadedOk cfgs.
Proof.
  intros Hst Hrd Hf Hk Hun.
  unfold load_history, os_Stat, os_ReadFile, log_call. simpl.
  rewrite Hst, Hf, Hrd. simpl. rewrite Hf.
  destruct (f_kind f); [|done|]; by rewrite Hun.
Qed.

End RoundTripFacts.

(** X24.  What one run stores, the next run loads.  After the history
    step of [run] has succeeded, a new process on the same files,
    whose decoder reads back what [json.MarshalIndent] wrote, starts
    [run] with the history of the first process, its new record
    included, and so bootstraps with the shift of that longer history. *)
Theorem next_run_loads_what_this_run_stored
        (env env' : Historical.Env) (s s1 : Historical.State) (nw : Network)
        (data : list Byte.byte) :
  Historical.pc s = Historical.PRecord ->
  Historical.net s = Some nw ->
  Historical.main_step env s = Some s1 ->
  Historical.pc s1 = Historical.PAwait 1 ->
  Historical.logger_fault env' = None ->
  Historical.home env' = Historical.home env ->
  stat_fault (Historical.faults env') (Historical.configFilePath env) = None ->
  read_fault (Historical.faults env') (Historical.configFilePath env) = None ->
  Historical.json_MarshalIndent (Historical.configs s1) = inr data ->
  Historical.json_Unmarshal env' data = inr (Historical.configs s1) ->
  (exists networkID,
     Historical.configs s1
     = Historical.configs s
       ++ [Historical.mkNetworkConfig networkID (Historical.shift s)]) /\
  Historical.pc (Historical.main_prologue env' (Historical.init (Historical.world s1)))
  = Historical.PSetup /\
  Historical.configs
    (Historical.main_prologue env' (Historical.init (Historical.world s1)))
  = Historical.configs s1 /\
  forall s3,
    Historical.main_step env'
      (Historical.main_prologue env' (Historical.init (Historical.world s1)))
    = Some s3 ->
    Historical.pc s3 = Historical.PRecord ->
    Historical.shift s3 = Historical.compute_shift (Historical.configs s1).
Proof.
  intros Hpc Hnet Hstep Hpc1 Hlog Hhome Hst Hrd Hm Hun.
  assert (Historical.configFilePath env' = Historical.configFilePath env) as Hpath.
  { unfold Historical.configFilePath. by rewrite Hhome. }
  assert ((exists networkID,
             Historical.configs s1
             = Historical.configs s
               ++ [Historical.mkNetworkConfig networkID (Historical.shift s)]) /\
          exists f, files (Historical.world s1) !! Historical.configFilePath env
                    = Some f /\ f_data f = data /\ f_kind f <> Directory)
    as [Hrec (f & Hf & Hdata & Hkind)].
  { unfold Historical.main_step in Hstep. rewrite Hpc, Hnet in Hstep.
    unfold Historical.run_record in Hstep.
    destruct (nw_GetNetworkID nw) as [e|networkID]; [by simplify_eq|].
    destruct s as [pc0 lpc0 world0 configs0 shift0 logs0 stops0 net0 notified0
                   sigbuf0 sigclosed0 closed0 names0 chains0 urls0 result0].
    StopFacts.state_simpl.
    destruct (Historical.json_MarshalIndent _) as [e|text] eqn:Hm'; [by simplify_eq|].
    destruct (os_WriteFile _ _ _ _ _) as [w' [e|]] eqn:Hw; [by simplify_eq|].
    simplify_eq. StopFacts.state_simpl. split; [eauto|].
    apply RoundTripFacts.os_WriteFile_written in Hw as (f & Hf & Hdata & Hk).
    exists f. split_and!; [done| |done]. congruence. }
  split; [done|].
  pose proof (RoundTripFacts.load_history_ok env' (Historical.world s1) f
                (Historical.configs s1)) as Hload.
  rewrite Hpath, Hdata in Hload. specialize (Hload Hst Hrd Hf Hkind Hun).
  destruct (Historical.load_history env' (Historical.world s1)) as [w1 ld] eqn:Hl.
  simpl in Hload. subst ld.
  rewrite (HistoryFacts.main_prologue_loaded env' _ w1 _ Hlog Hl).
  split; [done|]. split; [done|].
  intros s3 Hstep3 Hpc3.
  apply HistoryFacts.run_setup_shift in Hstep3 as [Hs _]; [exact Hs|done|done].
Qed.

Lemma no_network_no_stop_witness :
  exists s,
    Historical.exec (Scenario.hist_env Scenario.broken_lib)
                    [Historical.EvMain; Historical.EvMain; Historical.EvMain]
                    (Historical.init Scenario.fresh_host) = Some s /\
    Historical.pc s = Historical.PExit 1 /\
    Historical.stops s = 0%nat.
Proof.
  assert ((fun s => (Historical.pc s,
                     match Historical.net s with Some _ => true | None => false end))
            <$> Historical.exec (Scenario.hist_env Scenario.broken_lib)
                  [Historical.EvMain; Historical.EvMain; Historical.EvMain]
                  (Historical.init Scenario.fresh_host)
          = Some (Historical.PExit 1, false)) as H.
  { vm_compute. reflexivity. }
  apply fmap_Some in H as (s & Hrun & Hs).
  injection Hs as Hpc Hnet.
  exists s. split_and!; [done|done|].
  apply (no_network_no_stop _ _ _ s Hrun).
  by destruct (Historical.net s).
Defined.

Lemma next_run_loads_what_this_run_stored_witness :
  exists s s1,
    Historical.exec Scenario.hist_env_second
                    [Historical.EvMain; Historical.EvMain]
                    (Historical.init Scenario.garbled_host) = Some s /\
    Historical.main_step Scenario.hist_env_second s = Some s1 /\
    Historical.configs
      (Historical.main_prologue (Scenario.hist_env Scenario.good_lib)
                                (Historical.init (Historical.world s1)))
    = Scenario.two_records.
Proof.
  pose (env := Scenario.hist_env_second).
  assert ((fun s => (Historical.pc s,
                     match Historical.net s with Some _ => true | None => false end,
                     Historical.pc <$> Historical.main_step env s,
                     Historical.configs <$> Historical.main_step env s))
            <$> Historical.exec env [Historical.EvMain; Historical.EvMain]
                                (Historical.init Scenario.garbled_host)
          = Some (Historical.PRecord, true, Some (Historical.PAwait 1),
                  Some Scenario.two_records)) as H.
  { vm_compute. reflexivity. }
  apply fmap_Some in H as (s & Hrun & Hs).
  injection Hs as Hpc Hnet Hpc1 Hcfg.
  destruct (Historical.net s) as [nw|] eqn:Hnw; [|discriminate Hnet].
  destruct (Historical.main_step env s) as [s1|] eqn:Hstep; [|discriminate Hpc1].
  injection Hpc1 as Hpc1. injection Hcfg as Hcfg.
  exists s, s1. split_and!; [done|done|].
  rewrite Hcfg.
  refine (proj1 (proj2 (proj2
            (next_run_loads_what_this_run_stored env
               (Scenario.hist_env Scenario.good_lib) s s1 nw _
               (eq_sym Hpc) Hnw Hstep (eq_sym Hpc1) eq_refl eq_refl eq_refl eq_refl
               _ _)))).
  - rewrite <- Hcfg. reflexivity.
  - rewrite <- Hcfg. vm_compute. reflexivity.
Defined.

(** ** The working directory *)

(** X25.  In both variants, processes with the same home directory
    work in the same directory exactly when they were started in the
    same second: the start time is the only thing that keeps the
    [RemoveAll] of one run away from the nodes of another. *)
Theorem work_dir_is_shared_iff_same_second
        (h1 h2 : Historical.Env) (m1 m2 : MultiSubnet.Env) :
  (Historical.home h1 = Historical.home h2 ->
   Historical.workDir h1 = Historical.workDir h2
   <-> Historical.now_unix h1 = Historical.now_unix h2) /\
  (MultiSubnet.home m1 = MultiSubnet.home m2 ->
   MultiSubnet.workDir m1 = MultiSubnet.workDir m2
   <-> MultiSubnet.now_unix m1 = MultiSubnet.now_unix m2).
Proof.
  assert (forall home a b,
            home +:+ "/universal-subnet-runner/networks/" +:+ itoa a +:+ "/nodes"
            = home +:+ "/universal-subnet-runner/networks/" +:+ itoa b +:+ "/nodes"
            -> a = b) as Hinj.
  { intros home a b H.
    do 2 apply ScenarioFacts.append_inj_r in H.
    change (itoa a +:+ String (Ascii.ascii_of_nat 47) "" +:+ "nodes"
            = itoa b +:+ String (Ascii.ascii_of_nat 47) "" +:+ "nodes") in H.
    apply JsonFacts.itoa_then_separator in H as [H _];
      [done|vm_compute; intuition discriminate]. }
  split; intros Hhome; unfold Historical.workDir, MultiSubnet.workDir;
    rewrite Hhome; (split; [apply Hinj | by intros ->]).
Qed.

Lemma work_dir_is_shared_iff_same_second_witness :
  Historical.workDir (Scenario.hist_env Scenario.good_lib)
  = Historical.workDir Scenario.hist_env_second.
Proof.
  apply (proj1 (work_dir_is_shared_iff_same_second
                  (Scenario.hist_env Scenario.good_lib) Scenario.hist_env_second
                  (Scenario.multi_env 1 Scenario.good_lib Scenario.soon None)
                  (Scenario.multi_env 1 Scenario.good_lib Scenario.soon None))).
  - reflexivity.
  - reflexivity.
Defined.
